(** * pycpd: the rigid M-step of Coherent Point Drift

    A shallow embedding of [pycpd/rigid_registration.py] (class
    [RigidRegistration]) and the properties its specification states.

    Numbers.  The program computes on IEEE doubles through numpy.  Here a
    double is a real number ([R]): rounding, infinities and NaN are outside
    the model, and so is every statement that would depend on them.  The
    one place where a NaN decides what the code does, the floor of
    [sigma2], is evaluated on binary64 numbers in the module [doubles] at
    the end of the definitions.

    Arrays.  A numpy array carries its shape.  One-dimensional arrays are
    lists, two-dimensional arrays are row lists together with their column
    count (so that a [0 x D] array keeps its [D]); the operations follow
    numpy's shape rules and fail ([None]) where numpy raises.

    Library code.  [np.linalg.svd] and
    [pycpd.utility.is_positive_semi_definite] are called by the class but
    not defined in [rigid_registration.py]; they are parameters here.  The
    attributes inherited from [EMRegistration] are taken as they are
    found. *)

From Stdlib Require Import Reals Lra Lia List Arith ZArith Bool.
From Stdlib Require Floats.PrimFloat.
Import ListNotations.
Local Open Scope R_scope.

(** ** Exceptions as [option] *)

Definition bind {A B : Type} (e : option A) (k : A -> option B) : option B :=
  match e with
  | Some a => k a
  | None => None
  end.

Notation "'let?' x ':=' e 'in' k" := (bind e (fun x => k))
  (at level 10, x pattern, e at level 100, k at level 200).

(** ** The numpy primitives the class calls *)

Module np.

Definition vector := list R.

Record matrix : Type := Mat { ncols : nat; rows : list vector }.

Definition nrows (a : matrix) : nat := length (rows a).

(** [a[i, j]] and [v[i]] for indices that are in range. *)
Definition item (a : matrix) (i j : nat) : R := nth j (nth i (rows a) []) 0.
Definition vitem (v : vector) (i : nat) : R := nth i v 0.

(** Left-to-right accumulation [f 0 + f 1 + ... + f (n-1)]. *)
Fixpoint rsum (n : nat) (f : nat -> R) : R :=
  match n with
  | O => 0
  | S k => rsum k f + f k
  end.

(** Arrays given by their entries. *)
Definition tab1 (n : nat) (f : nat -> R) : vector := map f (seq 0 n).
Definition tab2 (n m : nat) (f : nat -> nat -> R) : matrix :=
  Mat m (map (fun i => tab1 m (f i)) (seq 0 n)).

(** [np.sum(a, axis=0)]: one entry per column. *)
Definition sum_axis0 (a : matrix) : vector :=
  tab1 (ncols a) (fun j => rsum (nrows a) (fun i => item a i j)).

(** [np.sum(a, axis=1)]: one entry per row. *)
Definition sum_axis1 (a : matrix) : vector :=
  tab1 (nrows a) (fun i => rsum (ncols a) (fun j => item a i j)).

(** [np.divide(v, x)] for a one-dimensional [v] and a scalar [x]. *)
Definition divide (v : vector) (x : R) : vector := map (fun a => a / x) v.

(** [np.transpose]: swaps the axes of a two-dimensional array and is the
    identity on a one-dimensional one. *)
Definition transpose (a : matrix) : matrix :=
  tab2 (ncols a) (nrows a) (fun i j => item a j i).
Definition transpose1 (v : vector) : vector := v.

(** [np.dot] at the three rank combinations the class uses.  numpy raises
    [ValueError] when the inner dimensions differ. *)
Definition dot (a b : matrix) : option matrix :=
  if ncols a =? nrows b
  then Some (tab2 (nrows a) (ncols b)
               (fun i j => rsum (ncols a) (fun k => item a i k * item b k j)))
  else None.

Definition dot_mv (a : matrix) (v : vector) : option vector :=
  if ncols a =? length v
  then Some (tab1 (nrows a) (fun i => rsum (ncols a) (fun k => item a i k * vitem v k)))
  else None.

Definition dot_vv (u v : vector) : option R :=
  if length u =? length v
  then Some (rsum (length u) (fun k => vitem u k * vitem v k))
  else None.

(** [np.tile(v, (n, 1))]: [n] copies of the row [v]. *)
Definition tile (v : vector) (n : nat) : matrix :=
  tab2 n (length v) (fun _ j => vitem v j).

(** Broadcasting of one axis: equal extents, or one of them is 1. *)
Definition bdim (a b : nat) : option nat :=
  if a =? b then Some a
  else if a =? 1 then Some b
  else if b =? 1 then Some a
  else None.

Definition bidx (extent i : nat) : nat := if extent =? 1 then 0%nat else i.

Definition broadcast2 (f : R -> R -> R) (a b : matrix) : option matrix :=
  let? n := bdim (nrows a) (nrows b) in
  let? m := bdim (ncols a) (ncols b) in
  Some (tab2 n m (fun i j =>
          f (item a (bidx (nrows a) i) (bidx (ncols a) j))
            (item b (bidx (nrows b) i) (bidx (ncols b) j)))).

Definition broadcast1 (f : R -> R -> R) (u v : vector) : option vector :=
  let? n := bdim (length u) (length v) in
  Some (tab1 n (fun i => f (vitem u (bidx (length u) i)) (vitem v (bidx (length v) i)))).

(** [a - b], [np.multiply(a, b)], [a + b] on two-dimensional arrays and
    [u - v] on one-dimensional ones. *)
Definition subtract : matrix -> matrix -> option matrix := broadcast2 Rminus.
Definition multiply : matrix -> matrix -> option matrix := broadcast2 Rmult.
Definition add : matrix -> matrix -> option matrix := broadcast2 Rplus.
Definition subtract1 : vector -> vector -> option vector := broadcast1 Rminus.

(** [x * a] for a scalar [x]. *)
Definition scale (x : R) (a : matrix) : matrix :=
  tab2 (nrows a) (ncols a) (fun i j => x * item a i j).
Definition scale1 (x : R) (v : vector) : vector := map (fun a => x * a) v.

(** [np.ones((n,))], [np.eye(n)], [np.zeros((n, m))], [np.diag(v)]. *)
Definition ones (n : nat) : vector := repeat 1 n.
Definition eye (n : nat) : matrix := tab2 n n (fun i j => if i =? j then 1 else 0).
Definition zeros (n m : nat) : matrix := tab2 n m (fun _ _ => 0).
Definition diag (v : vector) : matrix :=
  tab2 (length v) (length v) (fun i j => if i =? j then vitem v i else 0).

(** [np.trace]: the sum along the main diagonal. *)
Definition trace (a : matrix) : R :=
  rsum (Nat.min (nrows a) (ncols a)) (fun i => item a i i).

(** Python indexing of a sequence of length [len]: a negative index counts
    from the end, and an index outside [-len, len) raises [IndexError]. *)
Definition py_index (len : nat) (i : Z) : option nat :=
  let i' := if (i <? 0)%Z then (i + Z.of_nat len)%Z else i in
  if ((0 <=? i') && (i' <? Z.of_nat len))%Z then Some (Z.to_nat i') else None.

Fixpoint replace_nth (v : vector) (k : nat) (x : R) : vector :=
  match v, k with
  | [], _ => []
  | _ :: v', O => x :: v'
  | y :: v', S k' => y :: replace_nth v' k' x
  end.

(** [v[i] = x]. *)
Definition setitem (v : vector) (i : Z) (x : R) : option vector :=
  let? k := py_index (length v) i in
  Some (replace_nth v k x).

(** [np.log] and [np.abs] on scalars. *)
Definition log : R -> R := ln.
Definition abs : R -> R := Rabs.

Module linalg.

(** [np.linalg.det], as the expansion along the first row.  numpy raises
    [LinAlgError] on an array that is not square, and returns 1 for the
    empty matrix. *)
Definition drop_col (j : nat) (r : vector) : vector := firstn j r ++ skipn (S j) r.

Fixpoint det_rows (n : nat) (rs : list vector) : R :=
  match n with
  | O => 1
  | S k =>
      match rs with
      | [] => 0
      | r :: rest =>
          rsum (S k) (fun j => (-1) ^ j * vitem r j * det_rows k (map (drop_col j) rest))
      end
  end.

Definition det (a : matrix) : option R :=
  if nrows a =? ncols a then Some (det_rows (nrows a) (rows a)) else None.

End linalg.

(** An array of any rank, for values whose rank the class inspects at run
    time: the seeds handed to the constructor, and the translation. *)
Inductive ndarray : Type :=
| Arr0 (x : R)
| Arr1 (v : vector)
| Arr2 (a : matrix)
| ArrN (d1 d2 d3 : nat) (more : list nat) (data : list R).

Definition ndim (a : ndarray) : nat :=
  match a with
  | Arr0 _ => 0
  | Arr1 _ => 1
  | Arr2 _ => 2
  | ArrN _ _ _ more _ => 3 + length more
  end.

Definition shape (a : ndarray) : list nat :=
  match a with
  | Arr0 _ => []
  | Arr1 v => [length v]
  | Arr2 m => [nrows m; ncols m]
  | ArrN d1 d2 d3 more _ => d1 :: d2 :: d3 :: more
  end.

(** [a + t] for a two-dimensional [a]: a scalar is added to every entry, a
    one-dimensional [t] is read as a single row.  An operand of rank three
    or more would make numpy return an array of that rank; the class never
    holds one (its constructor refuses such a seed), and the case is
    reported as a failure here. *)
Definition add_nd (a : matrix) (t : ndarray) : option matrix :=
  match t with
  | Arr0 x => Some (tab2 (nrows a) (ncols a) (fun i j => item a i j + x))
  | Arr1 v => add a (Mat (length v) [v])
  | Arr2 b => add a b
  | ArrN _ _ _ _ _ => None
  end.

End np.

Import np.

(** ** The registration object *)

(** The attributes inherited from [EMRegistration] that this class reads or
    writes.  The parent class (its constructor and its expectation step) is
    not part of the file under study: its attributes are taken as given. *)
Record EMRegistration : Type := EM {
  self_X : matrix;
  self_Y : matrix;
  self_TY : matrix;
  self_sigma2 : R;
  self_N : nat;
  self_M : nat;
  self_D : nat;
  self_tolerance : R;
  self_diff : R;
  self_q : R;
  self_P : matrix;
  self_Pt1 : vector;
  self_P1 : vector;
  self_PX : matrix;
  self_Np : R
}.

(** [X_hat], [YPY] and [A] do not exist before the first call of
    [update_transform] ([None]: reading them raises [AttributeError]). *)
Record RigidRegistration : Type := Rigid {
  super :> EMRegistration;
  self_R : matrix;
  self_t : ndarray;
  self_s : R;
  self_do_scale : bool;
  self_do_rot : bool;
  self_do_trans : bool;
  self_X_hat : option matrix;
  self_YPY : option R;
  self_A : option matrix
}.

Definition set_TY (e : EMRegistration) (TY : matrix) : EMRegistration :=
  EM (self_X e) (self_Y e) TY (self_sigma2 e) (self_N e) (self_M e) (self_D e)
     (self_tolerance e) (self_diff e) (self_q e) (self_P e) (self_Pt1 e)
     (self_P1 e) (self_PX e) (self_Np e).

Definition set_variance (e : EMRegistration) (q diff sigma2 : R) : EMRegistration :=
  EM (self_X e) (self_Y e) (self_TY e) sigma2 (self_N e) (self_M e) (self_D e)
     (self_tolerance e) diff q (self_P e) (self_Pt1 e)
     (self_P1 e) (self_PX e) (self_Np e).

Definition with_super (self : RigidRegistration) (e : EMRegistration) : RigidRegistration :=
  Rigid e (self_R self) (self_t self) (self_s self)
        (self_do_scale self) (self_do_rot self) (self_do_trans self)
        (self_X_hat self) (self_YPY self) (self_A self).

(** What the constructor can raise. *)
Inductive exn : Type := ValueError | AssertionError.

Inductive result (A : Type) : Type :=
| Ok (a : A)
| Raise (e : exn).
Arguments Ok {A} a.
Arguments Raise {A} e.

(** The scale seed is any Python object: a number, or something else. *)
Inductive pyobj : Type :=
| Number (x : R)
| Other.

(** The local variables of [update_transform] that the specification
    speaks about. *)
Record locals : Type := Locals {
  loc_muX : vector;
  loc_muY : vector;
  loc_Y_hat : matrix;
  loc_U : matrix;
  loc_V : matrix;
  loc_C : vector
}.

Section Class_RigidRegistration.

(** [np.linalg.svd(a, full_matrices=True)] returns [(U, S, Vh)] with
    [a = U diag(S) Vh], or raises [LinAlgError]. *)
Variable svd : matrix -> option (matrix * vector * matrix).

(** [pycpd.utility.is_positive_semi_definite]. *)
Variable is_positive_semi_definite : ndarray -> bool.

(** The three seed checks of [__init__], each [true] when the seed is
    refused. *)
Definition R_refused (D : nat) (R : option ndarray) : bool :=
  match R with
  | None => false
  | Some R =>
      negb (ndim R =? 2)
      || negb (nth 0 (shape R) 0%nat =? D)
      || negb (nth 1 (shape R) 0%nat =? D)
      || negb (is_positive_semi_definite R)
  end.

Definition t_refused (D : nat) (t : option ndarray) : bool :=
  match t with
  | None => false
  | Some t =>
      negb (ndim t =? 2)
      || negb (nth 0 (shape t) 0%nat =? 1)
      || negb (nth 1 (shape t) 0%nat =? D)
  end.

Definition s_refused (s : option pyobj) : bool :=
  match s with
  | None => false
  | Some (Number x) => if Rle_dec x 0 then true else false
  | Some Other => true
  end.

(** [RigidRegistration.__init__], after [super().__init__] has produced
    [base].  The checks come in the order of the source; the [assert] is
    the last statement.  A rotation seed that passed its check is
    two-dimensional, so the [Some _] case of the inner [match] is never
    reached. *)
Definition __init__ (base : EMRegistration)
    (R t : option ndarray) (s : option pyobj)
    (do_scale do_rot do_trans : bool) : result RigidRegistration :=
  let D := self_D base in
  if negb (D =? 2) && negb (D =? 3) then Raise ValueError
  else if R_refused D R then Raise ValueError
  else if t_refused D t then Raise ValueError
  else if s_refused s then Raise ValueError
  else
    match (match R with
           | None => Some (eye D)
           | Some (Arr2 a) => Some a
           | Some _ => None
           end) with
    | None => Raise ValueError
    | Some R' =>
        let t' := match t with None => Arr2 (zeros 1 D) | Some t => t end in
        let s' := match s with Some (Number x) => x | _ => 1 end in
        if negb (do_scale || do_rot || do_trans) then Raise AssertionError
        else Ok (Rigid base R' t' s' do_scale do_rot do_trans None None None)
    end.

(** [update_transform], returning its local variables together with the
    updated object.  The rank of every operand is fixed by the type of the
    attribute it comes from, which selects the case of [np.dot] and of
    [np.transpose].  The toggles are Python booleans, on which the test
    [self.do_scale is True] and the truth tests of the other two agree.
    An exception leaves no object behind ([None]). *)
Definition update_transform_locals (self : RigidRegistration)
  : option (locals * RigidRegistration) :=
  let muX := divide (sum_axis0 (self_PX self)) (self_Np self) in
  let? PtY := dot (transpose (self_P self)) (self_Y self) in
  let muY := divide (sum_axis0 PtY) (self_Np self) in
  let? X_hat := subtract (self_X self) (tile muX (self_N self)) in
  let? Y_hat := subtract (self_Y self) (tile muY (self_M self)) in
  let? YY := multiply Y_hat Y_hat in
  let? YPY := dot_vv (transpose1 (self_P1 self)) (sum_axis1 YY) in
  let? A0 := dot (transpose X_hat) (transpose (self_P self)) in
  let? A := dot A0 Y_hat in
  let? (U, _, V) := svd A in
  let C := ones (self_D self) in
  let? UV := dot U V in
  let? d := linalg.det UV in
  let? C := setitem C (Z.of_nat (self_D self) - 1) d in
  let? R :=
    if self_do_rot self
    then (let? UC := dot U (diag C) in
          let? UCV := dot UC V in
          Some (transpose UCV))
    else Some (self_R self) in
  let? s :=
    if self_do_scale self
    then (let? AR := dot (transpose A) (transpose R) in
          Some (trace AR / YPY))
    else Some (self_s self) in
  let? t :=
    if self_do_trans self
    then (let? Rmu := dot_mv (transpose R) (transpose1 muY) in
          let? d := subtract1 (transpose1 muX) (scale1 s Rmu) in
          Some (Arr1 d))
    else Some (self_t self) in
  Some (Locals muX muY Y_hat U V C,
        Rigid (super self) R t s
              (self_do_scale self) (self_do_rot self) (self_do_trans self)
              (Some X_hat) (Some YPY) (Some A)).

Definition update_transform (self : RigidRegistration) : option RigidRegistration :=
  let? (_, self') := update_transform_locals self in Some self'.

(** Repeated calls of the estimator.  Between two calls the rest of an
    iteration (the expectation step, [transform_point_cloud],
    [update_variance]) replaces inherited attributes only. *)
Inductive estimator_calls : RigidRegistration -> RigidRegistration -> Prop :=
| calls_none (self : RigidRegistration) : estimator_calls self self
| calls_more (self self1 self2 : RigidRegistration) (e : EMRegistration) :
    update_transform self = Some self1 ->
    estimator_calls (with_super self1 e) self2 ->
    estimator_calls self self2.

(** [transform_point_cloud(Y=None)]: the updated object and the value
    returned ([None] for Python's [None]). *)
Definition transform_point_cloud (self : RigidRegistration) (Y : option matrix)
  : option (RigidRegistration * option matrix) :=
  match Y with
  | None =>
      let? YR := dot (self_Y self) (self_R self) in
      let? TY := add_nd (scale (self_s self) YR) (self_t self) in
      Some (with_super self (set_TY self TY), None)
  | Some Y =>
      let? YR := dot Y (self_R self) in
      let? out := add_nd (scale (self_s self) YR) (self_t self) in
      Some (self, Some out)
  end.

(** [update_variance]. *)
Definition update_variance (self : RigidRegistration) : option RigidRegistration :=
  let qprev := self_q self in
  let? A := self_A self in
  let? AR := dot A (self_R self) in
  let trAR := trace AR in
  let? X_hat := self_X_hat self in
  let? XX := multiply X_hat X_hat in
  let? xPx := dot_vv (transpose1 (self_Pt1 self)) (sum_axis1 XX) in
  let? YPY := self_YPY self in
  let q :=
    (xPx - 2 * self_s self * trAR + self_s self * self_s self * YPY)
      / (2 * self_sigma2 self)
    + INR (self_D self) * self_Np self / 2 * np.log (self_sigma2 self) in
  let diff := np.abs (q - qprev) in
  let sigma2 := (xPx - self_s self * trAR) / (self_Np self * INR (self_D self)) in
  let sigma2 := if Rle_dec sigma2 0 then self_tolerance self / 10 else sigma2 in
  Some (with_super self (set_variance self q diff sigma2)).

(** [get_registration_parameters]. *)
Definition get_registration_parameters (self : RigidRegistration)
  : R * matrix * ndarray :=
  (self_s self, self_R self, self_t self).

End Class_RigidRegistration.

(** ** Shapes the external expectation step guarantees *)

(** The statistics have the shapes of the data model: [X] is [N x D], [Y] is
    [M x D], [P] is [M x N], [PX] has [D] columns, [P1] and [Pt1] have [M]
    and [N] entries. *)
Record wf_statistics (self : RigidRegistration) : Prop := {
  wf_X_rows : nrows (self_X self) = self_N self;
  wf_X_cols : ncols (self_X self) = self_D self;
  wf_Y_rows : nrows (self_Y self) = self_M self;
  wf_Y_cols : ncols (self_Y self) = self_D self;
  wf_P_rows : nrows (self_P self) = self_M self;
  wf_P_cols : ncols (self_P self) = self_N self;
  wf_PX_cols : ncols (self_PX self) = self_D self;
  wf_P1_len : length (self_P1 self) = self_M self;
  wf_Pt1_len : length (self_Pt1 self) = self_N self
}.

(** The transform has the shapes the class itself produces: [R] is
    [D x D], and [t] is either the [1 x D] array of the constructor or the
    length-[D] array of [update_transform]. *)
Record wf_transform (self : RigidRegistration) : Prop := {
  wf_R_rows : nrows (self_R self) = self_D self;
  wf_R_cols : ncols (self_R self) = self_D self;
  wf_t_shape : shape (self_t self) = [1%nat; self_D self]
               \/ shape (self_t self) = [self_D self]
}.

(** ** Notions of the specification *)

(** The sign of a real number. *)
Definition sign (x : R) : R :=
  if Rlt_dec x 0 then -1 else if Rlt_dec 0 x then 1 else 0.

(** Every row of the array has [ncols] entries. *)
Definition rectangular (a : matrix) : Prop :=
  Forall (fun r => length r = ncols a) (rows a).

(** A [D x D] array. *)
Record square (D : nat) (a : matrix) : Prop := {
  square_rows : nrows a = D;
  square_cols : ncols a = D;
  square_rect : rectangular a
}.

(** A [D x D] array with orthonormal columns: [a^T a = I]. *)
Definition orthogonal (D : nat) (a : matrix) : Prop :=
  square D a /\ dot (transpose a) a = Some (eye D).

(** The dimension and the three seeds pass the checks of the constructor. *)
Definition seeds_accepted (is_positive_semi_definite : ndarray -> bool)
    (D : nat) (R t : option ndarray) (s : option pyobj) : bool :=
  ((D =? 2) || (D =? 3))
  && negb (R_refused is_positive_semi_definite D R)
  && negb (t_refused D t)
  && negb (s_refused s).

(** [j]-th entry of the translation, whichever of its two shapes it has. *)
Definition t_entry (t : ndarray) (j : nat) : R :=
  match t with
  | Arr0 x => x
  | Arr1 v => vitem v j
  | Arr2 a => item a 0 j
  | ArrN _ _ _ _ _ => 0
  end.

(** The squared Euclidean norm of row [i]. *)
Definition row_norm2 (a : matrix) (i : nat) : R :=
  rsum (ncols a) (fun j => item a i j * item a i j).

(** ** A worked registration step

    Target and source are the four points [(1,0)], [(-1,0)], [(0,1)],
    [(0,-1)]; source point [m] corresponds to target point [m] with weights
    [1, 1/2, 1/2, 1/2].  The statistics are those of this correspondence
    matrix: [P1] and [Pt1] its row and column sums, [Np] its total mass,
    [PX = P X].  The transform is the constructor's default. *)
Definition cross : matrix := Mat 2 [[1; 0]; [-1; 0]; [0; 1]; [0; -1]].

Definition P_demo : matrix :=
  Mat 4 [[1; 0; 0; 0]; [0; 1/2; 0; 0]; [0; 0; 1/2; 0]; [0; 0; 0; 1/2]].

Definition em_demo : EMRegistration :=
  {| self_X := cross; self_Y := cross; self_TY := cross;
     self_sigma2 := 1; self_N := 4; self_M := 4; self_D := 2;
     self_tolerance := 1/1000; self_diff := 0; self_q := 0;
     self_P := P_demo; self_Pt1 := [1; 1/2; 1/2; 1/2]; self_P1 := [1; 1/2; 1/2; 1/2];
     self_PX := Mat 2 [[1; 0]; [-1/2; 0]; [0; 1/2]; [0; -1/2]];
     self_Np := 5/2 |}.

Definition demo (do_scale do_rot do_trans : bool) : RigidRegistration :=
  Rigid em_demo (eye 2) (Arr2 (zeros 1 2)) 1 do_scale do_rot do_trans None None None.

(** What the step computes on these data: both centroids are [(1/5, 0)],
    the centred clouds coincide, the cross-covariance is
    [diag(7/5, 1)], and [YPY = 12/5]. *)
Definition centred_cross : matrix :=
  Mat 2 [[4/5; 0]; [-6/5; 0]; [-1/5; 1]; [-1/5; -1]].

Definition identity2 : matrix := Mat 2 [[1; 0]; [0; 1]].

Definition A_demo : matrix := Mat 2 [[7/5; 0]; [0; 1]].

Definition demo_locals : locals :=
  Locals [1/5; 0] [1/5; 0] centred_cross identity2 identity2 [1; 1].

(** The object after the step: the data are already aligned, so rotation,
    scale and translation are the identity transform; an enabled
    translation is now a one-dimensional array. *)
Definition demo_updated (do_scale do_rot do_trans : bool) : RigidRegistration :=
  Rigid em_demo identity2
        (if do_trans then Arr1 [0; 0] else Arr2 (Mat 2 [[0; 0]]))
        1 do_scale do_rot do_trans
        (Some centred_cross) (Some (12/5)) (Some A_demo).

(** The same statistics with a seeded transform and only the scale
    enabled. *)
Definition stretch : matrix := Mat 2 [[2; 0]; [0; 1]].

Definition seeded (s : R) (X_hat : option matrix) (YPY : option R)
    (A : option matrix) : RigidRegistration :=
  Rigid em_demo stretch (Arr2 (Mat 2 [[3; 4]])) s true false false X_hat YPY A.

Definition seeded_updated : RigidRegistration :=
  seeded (19/12) (Some centred_cross) (Some (12/5)) (Some A_demo).

(** The object after [update_variance] on [demo_updated]: the fit is
    exact, the raw variance is 0 and the floor applies. *)
Definition demo_variance (do_scale do_rot do_trans : bool) : RigidRegistration :=
  with_super (demo_updated do_scale do_rot do_trans)
             (set_variance em_demo 0 0 (1/1000/10)).

(** A check that accepts every seed. *)
Definition psd_any (R : ndarray) : bool := true.

(** A decomposition routine that is exact on diagonal matrices with a
    non-negative diagonal: [a = I diag(a00, a11, ..) I]. *)
Definition svd_diagonal (a : matrix) : option (matrix * vector * matrix) :=
  Some (eye (nrows a), tab1 (nrows a) (fun i => item a i i), eye (ncols a)).

(** A routine that is no decomposition at all, to vary the result. *)
Definition svd_swap (a : matrix) : option (matrix * vector * matrix) :=
  Some (Mat 2 [[0; 1]; [1; 0]], [1; 1], eye 2).


(** Two points on a line: inherited attributes with [D = 1], which the
    constructor refuses. *)
Definition em_line : EMRegistration :=
  {| self_X := Mat 1 [[0]; [1]]; self_Y := Mat 1 [[0]; [1]]; self_TY := Mat 1 [[0]; [1]];
     self_sigma2 := 1; self_N := 2; self_M := 2; self_D := 1;
     self_tolerance := 1/1000; self_diff := 0; self_q := 0;
     self_P := Mat 2 [[1; 0]; [0; 1]]; self_Pt1 := [1; 1]; self_P1 := [1; 1];
     self_PX := Mat 1 [[0]; [1]]; self_Np := 2 |}.

(** A decomposition routine that always raises. *)
Definition svd_raises (a : matrix) : option (matrix * vector * matrix) := None.

(** ** The variance path on binary64 numbers

    The lines of [update_transform] and [update_variance] that lead to
    [sigma2], on IEEE doubles: the statistics of lines 102-114, the scale
    of lines 126-128 and the variance of lines 167-170 and 175-177.  The
    toggles are: rotation disabled, scale enabled; the decomposition of
    lines 117-119 then has no part in the scale, which is computed against
    the stored rotation.  The array operations are those of [np] with
    double arithmetic; numpy may add the terms of a sum in another order,
    which changes no result that is a small integer, a zero or a NaN. *)

Module doubles.

Import Floats.PrimFloat.
Local Open Scope float_scope.

Definition vector := list float.

Record matrix : Type := Mat { ncols : nat; rows : list vector }.

Definition nrows (a : matrix) : nat := length (rows a).

Definition item (a : matrix) (i j : nat) : float := nth j (nth i (rows a) []) 0.
Definition vitem (v : vector) (i : nat) : float := nth i v 0.

Fixpoint rsum (n : nat) (f : nat -> float) : float :=
  match n with
  | O => 0
  | S k => rsum k f + f k
  end.

Definition tab1 (n : nat) (f : nat -> float) : vector := map f (seq 0 n).
Definition tab2 (n m : nat) (f : nat -> nat -> float) : matrix :=
  Mat m (map (fun i => tab1 m (f i)) (seq 0 n)).

Definition sum_axis0 (a : matrix) : vector :=
  tab1 (ncols a) (fun j => rsum (nrows a) (fun i => item a i j)).

Definition sum_axis1 (a : matrix) : vector :=
  tab1 (nrows a) (fun i => rsum (ncols a) (fun j => item a i j)).

Definition divide (v : vector) (x : float) : vector := map (fun a => a / x) v.

Definition transpose (a : matrix) : matrix :=
  tab2 (ncols a) (nrows a) (fun i j => item a j i).

Definition dot (a b : matrix) : option matrix :=
  if Nat.eqb (ncols a) (nrows b)
  then Some (tab2 (nrows a) (ncols b)
               (fun i j => rsum (ncols a) (fun k => item a i k * item b k j)))
  else None.

Definition dot_vv (u v : vector) : option float :=
  if Nat.eqb (length u) (length v)
  then Some (rsum (length u) (fun k => vitem u k * vitem v k))
  else None.

Definition tile (v : vector) (n : nat) : matrix :=
  tab2 n (length v) (fun _ j => vitem v j).

Definition broadcast2 (f : float -> float -> float) (a b : matrix) : option matrix :=
  let? n := np.bdim (nrows a) (nrows b) in
  let? m := np.bdim (ncols a) (ncols b) in
  Some (tab2 n m (fun i j =>
          f (item a (np.bidx (nrows a) i) (np.bidx (ncols a) j))
            (item b (np.bidx (nrows b) i) (np.bidx (ncols b) j)))).

Definition subtract : matrix -> matrix -> option matrix := broadcast2 sub.
Definition multiply : matrix -> matrix -> option matrix := broadcast2 mul.

Definition trace (a : matrix) : float :=
  rsum (Nat.min (nrows a) (ncols a)) (fun i => item a i i).

(** The conversion of a Python integer, exact below [2^53]. *)
Fixpoint of_nat (n : nat) : float :=
  match n with
  | O => 0
  | S k => of_nat k + 1
  end.

(** The attributes the three fragments read. *)
Record attributes : Type := Attributes {
  self_X : matrix;
  self_Y : matrix;
  self_P : matrix;
  self_P1 : vector;
  self_Pt1 : vector;
  self_PX : matrix;
  self_Np : float;
  self_N : nat;
  self_M : nat;
  self_D : nat;
  self_R : matrix;
  self_tolerance : float
}.


(** Lines 126-128: the scale, against the stored rotation. *)
Definition update_transform_scale (self : attributes) (A : matrix) (YPY : float)
  : option float :=
  let? AR := dot (transpose A) (transpose (self_R self)) in
  Some (trace AR / YPY).




End doubles.
(** * Properties *)

(** ** Entries and shapes of the numpy primitives *)

(** Evaluation of the array operations, leaving real arithmetic alone. *)
Tactic Notation "np_eval" :=
  cbv - [Rplus Rmult Rminus Rdiv Ropp Rinv IZR Rle_dec Rlt_dec ln Rabs].
Tactic Notation "np_eval" "in" hyp(H) :=
  cbv - [Rplus Rmult Rminus Rdiv Ropp Rinv IZR Rle_dec Rlt_dec ln Rabs] in H.

Lemma bind_Some {A B : Type} (e : option A) (k : A -> option B) (b : B) :
  bind e k = Some b -> exists a, e = Some a /\ k a = Some b.
Proof.
  destruct e as [a|]; simpl; intros H; [exists a; auto | discriminate].
Qed.

(** Peels the first binding off a successful monadic computation. *)
Ltac unbind H :=
  let x := fresh "x" in
  let E := fresh "E" in
  apply bind_Some in H; destruct H as (x & E & H).

Lemma rsum_ext (n : nat) (f g : nat -> R) :
  (forall k, (k < n)%nat -> f k = g k) -> rsum n f = rsum n g.
Proof.
  induction n as [|n IH]; simpl; intros H; [reflexivity|].
  rewrite IH, (H n); auto with arith.
Qed.

Lemma tab1_length (n : nat) (f : nat -> R) : length (tab1 n f) = n.
Proof. unfold tab1. now rewrite length_map, length_seq. Qed.

Lemma tab1_vitem (n : nat) (f : nat -> R) (i : nat) :
  (i < n)%nat -> vitem (tab1 n f) i = f i.
Proof.
  intros Hi. unfold vitem, tab1.
  rewrite (nth_indep _ 0 (f 0%nat)) by now rewrite length_map, length_seq.
  now rewrite map_nth, seq_nth.
Qed.

Lemma tab2_nrows (n m : nat) (f : nat -> nat -> R) : nrows (tab2 n m f) = n.
Proof. unfold nrows, tab2; simpl. now rewrite length_map, length_seq. Qed.

Lemma tab2_ncols (n m : nat) (f : nat -> nat -> R) : ncols (tab2 n m f) = m.
Proof. reflexivity. Qed.

Lemma tab2_item (n m : nat) (f : nat -> nat -> R) (i j : nat) :
  (i < n)%nat -> (j < m)%nat -> item (tab2 n m f) i j = f i j.
Proof.
  intros Hi Hj. unfold item, tab2; simpl.
  rewrite (nth_indep _ [] (tab1 m (f 0%nat))) by now rewrite length_map, length_seq.
  rewrite (map_nth (fun i => tab1 m (f i))), seq_nth by assumption.
  now apply tab1_vitem.
Qed.

Lemma divide_length (v : vector) (x : R) : length (divide v x) = length v.
Proof. apply length_map. Qed.

Lemma divide_vitem (v : vector) (x : R) (i : nat) :
  (i < length v)%nat -> vitem (divide v x) i = vitem v i / x.
Proof.
  intros Hi. unfold vitem, divide.
  rewrite (nth_indep _ 0 (0 / x)) by now rewrite length_map.
  apply (map_nth (fun a => a / x)).
Qed.

Lemma scale1_length (x : R) (v : vector) : length (scale1 x v) = length v.
Proof. apply length_map. Qed.

Lemma scale1_vitem (x : R) (v : vector) (i : nat) :
  (i < length v)%nat -> vitem (scale1 x v) i = x * vitem v i.
Proof.
  intros Hi. unfold vitem, scale1.
  rewrite (nth_indep _ 0 (x * 0)) by now rewrite length_map.
  apply (map_nth (fun a => x * a)).
Qed.

Lemma bdim_same (n : nat) : bdim n n = Some n.
Proof. unfold bdim. now rewrite Nat.eqb_refl. Qed.

Lemma bidx_lt (n i : nat) : (i < n)%nat -> bidx n i = i.
Proof.
  unfold bidx. destruct (Nat.eqb_spec n 1); [lia | reflexivity].
Qed.

(** On operands of one shape broadcasting is the entrywise operation. *)
Lemma broadcast2_same (f : R -> R -> R) (a b : matrix) (n m : nat) :
  nrows a = n -> ncols a = m -> nrows b = n -> ncols b = m ->
  exists c, broadcast2 f a b = Some c /\ nrows c = n /\ ncols c = m /\
    forall i j, (i < n)%nat -> (j < m)%nat -> item c i j = f (item a i j) (item b i j).
Proof.
  intros Ha Ha' Hb Hb'. unfold broadcast2.
  rewrite Ha, Ha', Hb, Hb', !bdim_same. simpl.
  eexists; split; [reflexivity|].
  split; [apply tab2_nrows|]. split; [apply tab2_ncols|].
  intros i j Hi Hj. rewrite tab2_item by assumption.
  now rewrite !bidx_lt.
Qed.

Lemma broadcast1_same (f : R -> R -> R) (u v : vector) (n : nat) :
  length u = n -> length v = n ->
  exists w, broadcast1 f u v = Some w /\ length w = n /\
    forall i, (i < n)%nat -> vitem w i = f (vitem u i) (vitem v i).
Proof.
  intros Hu Hv. unfold broadcast1. rewrite Hu, Hv, bdim_same. simpl.
  eexists; split; [reflexivity|]. split; [apply tab1_length|].
  intros i Hi. rewrite tab1_vitem by assumption. now rewrite !bidx_lt.
Qed.

Lemma dot_shape (a b c : matrix) :
  dot a b = Some c ->
  ncols a = nrows b /\ nrows c = nrows a /\ ncols c = ncols b /\
  forall i j, (i < nrows a)%nat -> (j < ncols b)%nat ->
    item c i j = rsum (ncols a) (fun k => item a i k * item b k j).
Proof.
  unfold dot. destruct (Nat.eqb_spec (ncols a) (nrows b)) as [E|]; [|discriminate].
  intros [= <-]. split; [assumption|].
  split; [apply tab2_nrows|]. split; [apply tab2_ncols|].
  intros i j Hi Hj. now rewrite tab2_item.
Qed.

Lemma dot_defined (a b : matrix) :
  ncols a = nrows b -> exists c, dot a b = Some c.
Proof.
  intros E. unfold dot. rewrite E, Nat.eqb_refl. eauto.
Qed.

Lemma transpose_nrows (a : matrix) : nrows (transpose a) = ncols a.
Proof. apply tab2_nrows. Qed.

Lemma transpose_ncols (a : matrix) : ncols (transpose a) = nrows a.
Proof. reflexivity. Qed.

Lemma transpose_item (a : matrix) (i j : nat) :
  (i < ncols a)%nat -> (j < nrows a)%nat -> item (transpose a) i j = item a j i.
Proof. intros. unfold transpose. now rewrite tab2_item. Qed.

Lemma sum_axis0_length (a : matrix) : length (sum_axis0 a) = ncols a.
Proof. apply tab1_length. Qed.

Lemma sum_axis1_length (a : matrix) : length (sum_axis1 a) = nrows a.
Proof. apply tab1_length. Qed.

Lemma tile_shape (v : vector) (n : nat) :
  nrows (tile v n) = n /\ ncols (tile v n) = length v /\
  forall i j, (i < n)%nat -> (j < length v)%nat -> item (tile v n) i j = vitem v j.
Proof.
  unfold tile. split; [apply tab2_nrows|]. split; [reflexivity|].
  intros. now rewrite tab2_item.
Qed.

(** ** The steps of a successful [update_transform] *)

Section Estimator.

Variable svd : matrix -> option (matrix * vector * matrix).

(** A call that returns has gone through every step of the method; the
    lemma names the intermediate arrays. *)
Lemma update_transform_locals_inv (self self' : RigidRegistration) (loc : locals) :
  update_transform_locals svd self = Some (loc, self') ->
  exists PtY X_hat YY YPY A0 A S UV d,
    dot (transpose (self_P self)) (self_Y self) = Some PtY /\
    loc_muX loc = divide (sum_axis0 (self_PX self)) (self_Np self) /\
    loc_muY loc = divide (sum_axis0 PtY) (self_Np self) /\
    subtract (self_X self) (tile (loc_muX loc) (self_N self)) = Some X_hat /\
    subtract (self_Y self) (tile (loc_muY loc) (self_M self)) = Some (loc_Y_hat loc) /\
    multiply (loc_Y_hat loc) (loc_Y_hat loc) = Some YY /\
    dot_vv (self_P1 self) (sum_axis1 YY) = Some YPY /\
    dot (transpose X_hat) (transpose (self_P self)) = Some A0 /\
    dot A0 (loc_Y_hat loc) = Some A /\
    svd A = Some (loc_U loc, S, loc_V loc) /\
    dot (loc_U loc) (loc_V loc) = Some UV /\
    linalg.det UV = Some d /\
    setitem (ones (self_D self)) (Z.of_nat (self_D self) - 1) d = Some (loc_C loc) /\
    (if self_do_rot self
     then (let? UC := dot (loc_U loc) (diag (loc_C loc)) in
           let? UCV := dot UC (loc_V loc) in
           Some (transpose UCV))
     else Some (self_R self)) = Some (self_R self') /\
    (if self_do_scale self
     then (let? AR := dot (transpose A) (transpose (self_R self')) in
           Some (trace AR / YPY))
     else Some (self_s self)) = Some (self_s self') /\
    (if self_do_trans self
     then (let? Rmu := dot_mv (transpose (self_R self')) (loc_muY loc) in
           let? d := subtract1 (loc_muX loc) (scale1 (self_s self') Rmu) in
           Some (Arr1 d))
     else Some (self_t self)) = Some (self_t self') /\
    super self' = super self /\
    self_do_scale self' = self_do_scale self /\
    self_do_rot self' = self_do_rot self /\
    self_do_trans self' = self_do_trans self /\
    self_X_hat self' = Some X_hat /\
    self_YPY self' = Some YPY /\
    self_A self' = Some A.
Proof.
  unfold update_transform_locals, transpose1. intros H.
  apply bind_Some in H; destruct H as (PtY & E1 & H).
  apply bind_Some in H; destruct H as (X_hat & E2 & H).
  apply bind_Some in H; destruct H as (Y_hat & E3 & H).
  apply bind_Some in H; destruct H as (YY & E4 & H).
  apply bind_Some in H; destruct H as (YPY & E5 & H).
  apply bind_Some in H; destruct H as (A0 & E6 & H).
  apply bind_Some in H; destruct H as (A & E7 & H).
  apply bind_Some in H; destruct H as ([[U S] V] & E8 & H).
  apply bind_Some in H; destruct H as (UV & E9 & H).
  apply bind_Some in H; destruct H as (d & E10 & H).
  apply bind_Some in H; destruct H as (C & E11 & H).
  apply bind_Some in H; destruct H as (R' & E12 & H).
  apply bind_Some in H; destruct H as (s' & E13 & H).
  apply bind_Some in H; destruct H as (t' & E14 & H).
  injection H as <- <-. simpl.
  exists PtY, X_hat, YY, YPY, A0, A, S, UV, d.
  repeat split; assumption.
Qed.

End Estimator.

(** ** Centroids and centring (C3) *)

(** Shapes and entries of the two centroids. *)
Lemma centroid_entries (a : matrix) (x : R) (D : nat) :
  ncols a = D ->
  length (divide (sum_axis0 a) x) = D /\
  forall j, (j < D)%nat ->
    vitem (divide (sum_axis0 a) x) j = rsum (nrows a) (fun i => item a i j) / x.
Proof.
  intros <-. split.
  - now rewrite divide_length, sum_axis0_length.
  - intros j Hj. rewrite divide_vitem by now rewrite sum_axis0_length.
    unfold sum_axis0. now rewrite tab1_vitem.
Qed.

(** Subtracting a tiled centroid from a cloud of matching width. *)
Lemma centred_entries (a c : matrix) (mu : vector) (n D : nat) :
  nrows a = n -> ncols a = D -> length mu = D ->
  subtract a (tile mu n) = Some c ->
  nrows c = n /\ ncols c = D /\
  forall i j, (i < n)%nat -> (j < D)%nat -> item c i j = item a i j - vitem mu j.
Proof.
  intros Hn HD Hmu E.
  destruct (tile_shape mu n) as (Tn & Tm & Tij).
  destruct (broadcast2_same Rminus a (tile mu n) n D) as (c' & E' & Cn & Cm & Cij);
    try congruence.
  unfold subtract in E. rewrite E' in E. injection E as <-.
  split; [assumption|]. split; [assumption|].
  intros i j Hi Hj. rewrite Cij, Tij by (try rewrite Hmu; assumption).
  reflexivity.
Qed.

(** The centroids and the centred clouds of a successful call, entry by
    entry. *)
Lemma centring_steps
    (svd : matrix -> option (matrix * vector * matrix))
    (self self' : RigidRegistration) (loc : locals) :
  wf_statistics self ->
  update_transform_locals svd self = Some (loc, self') ->
  (length (loc_muX loc) = self_D self /\
   forall j, (j < self_D self)%nat ->
     vitem (loc_muX loc) j
     = rsum (nrows (self_PX self)) (fun i => item (self_PX self) i j) / self_Np self) /\
  (length (loc_muY loc) = self_D self /\
   forall j, (j < self_D self)%nat ->
     vitem (loc_muY loc) j
     = rsum (self_N self) (fun n =>
         rsum (self_M self) (fun m => item (self_P self) m n * item (self_Y self) m j))
       / self_Np self) /\
  (exists X_hat, self_X_hat self' = Some X_hat /\
     nrows X_hat = self_N self /\ ncols X_hat = self_D self /\
     forall i j, (i < self_N self)%nat -> (j < self_D self)%nat ->
       item X_hat i j = item (self_X self) i j - vitem (loc_muX loc) j) /\
  (nrows (loc_Y_hat loc) = self_M self /\ ncols (loc_Y_hat loc) = self_D self /\
   forall i j, (i < self_M self)%nat -> (j < self_D self)%nat ->
     item (loc_Y_hat loc) i j = item (self_Y self) i j - vitem (loc_muY loc) j).
Proof.
  intros W H.
  destruct (update_transform_locals_inv svd _ _ _ H)
    as (PtY & X_hat & YY & YPY & A0 & A & S & UV & d & EPtY & EmuX & EmuY & EX & EY
        & _ & _ & _ & _ & _ & _ & _ & _ & _ & _ & _ & _ & _ & _ & _ & EXh & _ & _).
  destruct W.
  destruct (dot_shape _ _ _ EPtY) as (_ & Pn & Pm & Pij).
  rewrite transpose_nrows in Pn, Pij. rewrite transpose_ncols in Pij.
  destruct (centroid_entries (self_PX self) (self_Np self) (self_D self))
    as (LX & VX); [assumption|].
  destruct (centroid_entries PtY (self_Np self) (self_D self))
    as (LY & VY); [congruence|].
  rewrite <- EmuX in LX, VX. rewrite <- EmuY in LY, VY.
  split; [split; assumption|].
  split.
  { split; [assumption|]. intros j Hj. rewrite (VY j Hj). f_equal.
    rewrite Pn, wf_P_cols0. apply rsum_ext. intros n Hn.
    rewrite Pij by lia. rewrite wf_P_rows0. apply rsum_ext. intros m Hm.
    rewrite transpose_item by lia. reflexivity. }
  split.
  { exists X_hat. split; [assumption|].
    apply (centred_entries (self_X self)); assumption. }
  apply (centred_entries (self_Y self)); assumption.
Qed.

(** C3, as the code has it: the target centroid is the column sum of the
    aggregate [PX] over [Np] (not the plain sum of the target points), the
    source centroid is the column sum of [P^T Y] over [Np], and [X_hat]
    ([N x D]) and [Y_hat] ([M x D]) are the clouds minus their centroids. *)
Theorem update_transform_centres
    (svd : matrix -> option (matrix * vector * matrix))
    (self self' : RigidRegistration) (loc : locals) :
  wf_statistics self ->
  update_transform_locals svd self = Some (loc, self') ->
  (length (loc_muX loc) = self_D self /\
   forall j, (j < self_D self)%nat ->
     vitem (loc_muX loc) j
     = rsum (nrows (self_PX self)) (fun i => item (self_PX self) i j) / self_Np self) /\
  (length (loc_muY loc) = self_D self /\
   forall j, (j < self_D self)%nat ->
     vitem (loc_muY loc) j
     = rsum (self_N self) (fun n =>
         rsum (self_M self) (fun m => item (self_P self) m n * item (self_Y self) m j))
       / self_Np self) /\
  (exists X_hat, self_X_hat self' = Some X_hat /\
     nrows X_hat = self_N self /\ ncols X_hat = self_D self /\
     forall i j, (i < self_N self)%nat -> (j < self_D self)%nat ->
       item X_hat i j = item (self_X self) i j - vitem (loc_muX loc) j) /\
  (nrows (loc_Y_hat loc) = self_M self /\ ncols (loc_Y_hat loc) = self_D self /\
   forall i j, (i < self_M self)%nat -> (j < self_D self)%nat ->
     item (loc_Y_hat loc) i j = item (self_Y self) i j - vitem (loc_muY loc) j).
Proof.
  apply centring_steps.
Qed.

(** ** Determinants of orthogonal factors in dimension 2 and 3 *)

Lemma length1_inv (r : vector) : length r = 1%nat -> exists a, r = [a].
Proof. destruct r as [|a [|]]; try discriminate. eauto. Qed.

Lemma length2_inv (r : vector) : length r = 2%nat -> exists a b, r = [a; b].
Proof. destruct r as [|a [|b [|]]]; try discriminate. eauto. Qed.

Lemma length3_inv (r : vector) : length r = 3%nat -> exists a b c, r = [a; b; c].
Proof. destruct r as [|a [|b [|c [|]]]]; try discriminate. eauto. Qed.

Lemma square2_inv (a : matrix) :
  square 2 a ->
  exists a00 a01 a10 a11, a = Mat 2 [[a00; a01]; [a10; a11]].
Proof.
  intros [Hn Hm Hr]. destruct a as [m rs]. unfold nrows, rectangular in *.
  simpl in *. subst m.
  destruct rs as [|r0 [|r1 [|]]]; try discriminate.
  inversion Hr as [|? ? L0 Hr']; subst. inversion Hr' as [|? ? L1 _]; subst.
  destruct (length2_inv _ L0) as (a00 & a01 & ->).
  destruct (length2_inv _ L1) as (a10 & a11 & ->).
  now exists a00, a01, a10, a11.
Qed.

Lemma square3_inv (a : matrix) :
  square 3 a ->
  exists a00 a01 a02 a10 a11 a12 a20 a21 a22,
    a = Mat 3 [[a00; a01; a02]; [a10; a11; a12]; [a20; a21; a22]].
Proof.
  intros [Hn Hm Hr]. destruct a as [m rs]. unfold nrows, rectangular in *.
  simpl in *. subst m.
  destruct rs as [|r0 [|r1 [|r2 [|]]]]; try discriminate.
  inversion Hr as [|? ? L0 Hr']; subst. inversion Hr' as [|? ? L1 Hr'']; subst.
  inversion Hr'' as [|? ? L2 _]; subst.
  destruct (length3_inv _ L0) as (a00 & a01 & a02 & ->).
  destruct (length3_inv _ L1) as (a10 & a11 & a12 & ->).
  destruct (length3_inv _ L2) as (a20 & a21 & a22 & ->).
  now exists a00, a01, a02, a10, a11, a12, a20, a21, a22.
Qed.

Lemma square_one (x : R) : x * x = 1 -> x = 1 \/ x = -1.
Proof.
  intros H. assert (E : (x - 1) * (x + 1) = 0) by lra.
  apply Rmult_integral in E. destruct E; [left | right]; lra.
Qed.

Lemma sign_unit (x : R) : x = 1 \/ x = -1 -> sign x = x.
Proof.
  unfold sign. intros [-> | ->];
    destruct (Rlt_dec _ 0); try lra; destruct (Rlt_dec 0 _); lra.
Qed.

(** The determinant of an orthogonal matrix is 1 or -1. *)
Lemma orthogonal_det (D : nat) (a : matrix) :
  (D = 2 \/ D = 3)%nat -> orthogonal D a ->
  linalg.det_rows D (rows a) * linalg.det_rows D (rows a) = 1.
Proof.
  intros [-> | ->] [Sq E].
  - destruct (square2_inv _ Sq) as (a00 & a01 & a10 & a11 & ->).
    np_eval in E. injection E as E00 E01 E10 E11. np_eval.
    match type of E00 with ?g00 = _ =>
    match type of E01 with ?g01 = _ =>
    match type of E10 with ?g10 = _ =>
    match type of E11 with ?g11 = _ =>
      transitivity (g00 * g11 - g01 * g10); [ring|]
    end end end end.
    rewrite E00, E01, E10, E11. ring.
  - destruct (square3_inv _ Sq)
      as (a00 & a01 & a02 & a10 & a11 & a12 & a20 & a21 & a22 & ->).
    np_eval in E. injection E as E00 E01 E02 E10 E11 E12 E20 E21 E22. np_eval.
    match type of E00 with ?g00 = _ =>
    match type of E01 with ?g01 = _ =>
    match type of E02 with ?g02 = _ =>
    match type of E10 with ?g10 = _ =>
    match type of E11 with ?g11 = _ =>
    match type of E12 with ?g12 = _ =>
    match type of E20 with ?g20 = _ =>
    match type of E21 with ?g21 = _ =>
    match type of E22 with ?g22 = _ =>
      transitivity (g00 * (g11 * g22 - g12 * g21)
                    - g01 * (g10 * g22 - g12 * g20)
                    + g02 * (g10 * g21 - g11 * g20)); [ring|]
    end end end end end end end end end.
    rewrite E00, E01, E02, E10, E11, E12, E20, E21, E22. ring.
Qed.

(** The determinant of a product, in dimension 2 and 3. *)
Lemma det_dot (D : nat) (a b c : matrix) (d : R) :
  (D = 2 \/ D = 3)%nat -> square D a -> square D b ->
  dot a b = Some c -> linalg.det c = Some d ->
  d = linalg.det_rows D (rows a) * linalg.det_rows D (rows b).
Proof.
  intros [-> | ->] Sa Sb E Ed.
  - destruct (square2_inv _ Sa) as (a00 & a01 & a10 & a11 & ->).
    destruct (square2_inv _ Sb) as (b00 & b01 & b10 & b11 & ->).
    np_eval in E. injection E as <-. np_eval in Ed. injection Ed as <-.
    np_eval. ring.
  - destruct (square3_inv _ Sa)
      as (a00 & a01 & a02 & a10 & a11 & a12 & a20 & a21 & a22 & ->).
    destruct (square3_inv _ Sb)
      as (b00 & b01 & b02 & b10 & b11 & b12 & b20 & b21 & b22 & ->).
    np_eval in E. injection E as <-. np_eval in Ed. injection Ed as <-.
    np_eval. ring.
Qed.

(** For orthogonal factors the determinant of [U V] is its own sign. *)
Lemma det_of_orthogonal_factors (D : nat) (u v uv : matrix) (d : R) :
  (D = 2 \/ D = 3)%nat -> orthogonal D u -> orthogonal D v ->
  dot u v = Some uv -> linalg.det uv = Some d ->
  sign d = d.
Proof.
  intros HD Ou Ov E Ed. apply sign_unit.
  rewrite (det_dot D u v uv d HD (proj1 Ou) (proj1 Ov) E Ed).
  destruct (square_one _ (orthogonal_det D u HD Ou)) as [-> | ->];
    destruct (square_one _ (orthogonal_det D v HD Ov)) as [-> | ->]; lra.
Qed.

(** ** The correction vector *)

Lemma ones_length (n : nat) : length (ones n) = n.
Proof. apply repeat_length. Qed.

Lemma ones_vitem (n j : nat) : (j < n)%nat -> vitem (ones n) j = 1.
Proof.
  intros Hj. unfold vitem, ones.
  rewrite (nth_indep _ 0 1) by now rewrite repeat_length.
  apply nth_repeat.
Qed.

Lemma replace_nth_length (v : vector) (k : nat) (x : R) :
  length (replace_nth v k x) = length v.
Proof.
  revert k. induction v as [|y v IH]; intros [|k]; simpl; auto.
Qed.

Lemma replace_nth_vitem (v : vector) (k j : nat) (x : R) :
  (k < length v)%nat ->
  vitem (replace_nth v k x) j = if j =? k then x else vitem v j.
Proof.
  unfold vitem. revert k j. induction v as [|y v IH]; simpl; intros k j Hk; [lia|].
  destruct k as [|k], j as [|j]; simpl; auto.
  apply IH. lia.
Qed.

(** The index [D - 1] of a sequence of length [D] is its last position;
    on an empty sequence it is out of range. *)
Lemma py_index_last (D k : nat) :
  py_index D (Z.of_nat D - 1) = Some k -> (k = D - 1 /\ 0 < D)%nat.
Proof.
  unfold py_index.
  destruct (Z.ltb_spec (Z.of_nat D - 1) 0) as [Hneg | Hpos].
  - assert (D = 0%nat) by lia. subst D. simpl. discriminate.
  - destruct (Z.leb_spec 0 (Z.of_nat D - 1)); simpl; [|discriminate].
    destruct (Z.ltb_spec (Z.of_nat D - 1) (Z.of_nat D)); [|discriminate].
    intros [= <-]. lia.
Qed.

Lemma py_index_last_defined (D : nat) :
  (0 < D)%nat -> py_index D (Z.of_nat D - 1) = Some (D - 1)%nat.
Proof.
  intros HD. unfold py_index.
  destruct (Z.ltb_spec (Z.of_nat D - 1) 0); [lia|].
  destruct (Z.leb_spec 0 (Z.of_nat D - 1)); [|lia].
  destruct (Z.ltb_spec (Z.of_nat D - 1) (Z.of_nat D)); [|lia].
  simpl. f_equal. lia.
Qed.

(** [C = np.ones((D,)); C[D - 1] = d] leaves a vector of length [D], all
    ones except the last entry [d]. *)
Lemma correction_vector (D : nat) (d : R) (C : vector) :
  setitem (ones D) (Z.of_nat D - 1) d = Some C ->
  length C = D /\
  forall j, (j < D)%nat -> vitem C j = if j =? D - 1 then d else 1.
Proof.
  unfold setitem. intros H. apply bind_Some in H. destruct H as (k & Ek & H).
  injection H as <-. rewrite ones_length in Ek.
  destruct (py_index_last _ _ Ek) as (-> & HD).
  split; [now rewrite replace_nth_length, ones_length|].
  intros j Hj. rewrite replace_nth_vitem by (rewrite ones_length; lia).
  destruct (j =? D - 1); [reflexivity | now apply ones_vitem].
Qed.

(** ** Rotation update (C1) *)

(** C1.  The array handed to the decomposition routine is the
    cross-covariance [A = (X_hat^T P^T) Y_hat] that the call stores, and
    [U], [V] are the factors the routine returns for it.  When these
    factors are orthogonal, the correction vector [C] has length [D], all
    its entries are 1 except the last, which is [sign(det(U V))], and with
    rotation enabled the stored rotation becomes the transpose of
    [U diag(C) V].  ([V] is the third value returned by numpy, the
    specification's [V^T].) *)
Theorem update_transform_rotation
    (svd : matrix -> option (matrix * vector * matrix))
    (self self' : RigidRegistration) (loc : locals) :
  (self_D self = 2 \/ self_D self = 3)%nat ->
  update_transform_locals svd self = Some (loc, self') ->
  orthogonal (self_D self) (loc_U loc) ->
  orthogonal (self_D self) (loc_V loc) ->
  exists X_hat A0 A S UV d,
    self_X_hat self' = Some X_hat /\
    dot (transpose X_hat) (transpose (self_P self)) = Some A0 /\
    dot A0 (loc_Y_hat loc) = Some A /\
    self_A self' = Some A /\
    svd A = Some (loc_U loc, S, loc_V loc) /\
    dot (loc_U loc) (loc_V loc) = Some UV /\
    linalg.det UV = Some d /\
    length (loc_C loc) = self_D self /\
    (forall j, (j < self_D self)%nat ->
       vitem (loc_C loc) j = if j =? self_D self - 1 then sign d else 1) /\
    (self_do_rot self = true ->
       exists UC UCV,
         dot (loc_U loc) (diag (loc_C loc)) = Some UC /\
         dot UC (loc_V loc) = Some UCV /\
         self_R self' = transpose UCV).
Proof.
  intros HD H OU OV.
  destruct (update_transform_locals_inv svd _ _ _ H)
    as (PtY & X_hat & YY & YPY & A0 & A & S & UV & d & _ & _ & _ & _ & _
        & _ & _ & EA0 & EA & Esvd & EUV & Ed & EC & ER & _ & _ & _ & _ & _
        & _ & EXh & _ & EAs).
  exists X_hat, A0, A, S, UV, d.
  repeat (split; [assumption|]).
  destruct (correction_vector _ _ _ EC) as (LC & VC).
  split; [assumption|]. split.
  - intros j Hj. rewrite (VC j Hj).
    now rewrite (det_of_orthogonal_factors _ _ _ _ _ HD OU OV EUV Ed).
  - intros Hrot. rewrite Hrot in ER.
    apply bind_Some in ER. destruct ER as (UC & EUC & ER).
    apply bind_Some in ER. destruct ER as (UCV & EUCV & ER).
    injection ER as <-. now exists UC, UCV.
Qed.

(** ** Weighted sums of squared norms *)

Lemma multiply_self (a c : matrix) :
  multiply a a = Some c ->
  nrows c = nrows a /\ ncols c = ncols a /\
  forall i j, (i < nrows a)%nat -> (j < ncols a)%nat ->
    item c i j = item a i j * item a i j.
Proof.
  intros E.
  destruct (broadcast2_same Rmult a a (nrows a) (ncols a))
    as (c' & E' & Cn & Cm & Cij); try reflexivity.
  unfold multiply in E. rewrite E' in E. injection E as <-. auto.
Qed.

Lemma multiply_self_defined (a : matrix) : exists c, multiply a a = Some c.
Proof.
  destruct (broadcast2_same Rmult a a (nrows a) (ncols a))
    as (c & E & _); try reflexivity.
  now exists c.
Qed.

(** [np.dot(w, np.sum(np.multiply(a, a), axis=1))] is the [w]-weighted sum
    of the squared norms of the rows of [a]; the call succeeds only when
    [w] has one weight per row. *)
Lemma weighted_row_norms (w : vector) (a aa : matrix) (x : R) :
  multiply a a = Some aa ->
  dot_vv w (sum_axis1 aa) = Some x ->
  length w = nrows a /\
  x = rsum (nrows a) (fun i => vitem w i * row_norm2 a i).
Proof.
  intros Eaa Ex. destruct (multiply_self _ _ Eaa) as (Cn & Cm & Cij).
  unfold dot_vv in Ex. rewrite sum_axis1_length, Cn in Ex.
  destruct (Nat.eqb_spec (length w) (nrows a)) as [L|]; [|discriminate].
  injection Ex as <-. split; [assumption|].
  rewrite L. apply rsum_ext. intros i Hi. f_equal.
  unfold sum_axis1. rewrite tab1_vitem by lia.
  unfold row_norm2. rewrite Cm. apply rsum_ext. intros j Hj. now apply Cij.
Qed.

(** ** Scale update (C2, C10) *)

(** C2.  [YPY] is the [P1]-weighted sum of the squared norms of the centred
    source points; with scale enabled [s] becomes
    [trace(A^T R^T) / YPY] for the cross-covariance [A] and the rotation
    [R] stored by this call, and with scale disabled [s] keeps its
    value. *)
Theorem update_transform_scale
    (svd : matrix -> option (matrix * vector * matrix))
    (self self' : RigidRegistration) (loc : locals) :
  wf_statistics self ->
  update_transform_locals svd self = Some (loc, self') ->
  exists YPY A,
    self_YPY self' = Some YPY /\
    self_A self' = Some A /\
    YPY = rsum (self_M self)
            (fun m => vitem (self_P1 self) m * row_norm2 (loc_Y_hat loc) m) /\
    (self_do_scale self = true ->
       exists AR,
         dot (transpose A) (transpose (self_R self')) = Some AR /\
         self_s self' = trace AR / YPY) /\
    (self_do_scale self = false -> self_s self' = self_s self).
Proof.
  intros W H.
  destruct (centring_steps svd _ _ _ W H) as (_ & _ & _ & Yn & _).
  destruct (update_transform_locals_inv svd _ _ _ H)
    as (PtY & X_hat & YY & YPY & A0 & A & S & UV & d & _ & _ & _ & _ & _
        & EYY & EYPY & _ & _ & _ & _ & _ & _ & _ & Es & _ & _ & _ & _ & _
        & _ & EY & EA).
  exists YPY, A. split; [assumption|]. split; [assumption|].
  destruct (weighted_row_norms _ _ _ _ EYY EYPY) as (_ & ->).
  split; [now rewrite Yn|]. split.
  - intros Hs. rewrite Hs in Es.
    apply bind_Some in Es. destruct Es as (AR & EAR & Es).
    injection Es as <-. now exists AR.
  - intros Hs. rewrite Hs in Es. now injection Es.
Qed.

(** C10.  With rotation disabled and scale enabled, the new scale is
    [trace(A^T R^T) / YPY] for the rotation [R] stored before the call and
    the cross-covariance [A = X_hat^T P^T Y_hat] of this call; whatever
    the decomposition routine returns, the scale is the same. *)
Theorem update_transform_scale_without_rotation
    (svd : matrix -> option (matrix * vector * matrix))
    (self self' : RigidRegistration) (loc : locals) :
  self_do_rot self = false ->
  self_do_scale self = true ->
  update_transform_locals svd self = Some (loc, self') ->
  exists X_hat A0 A YPY AR,
    self_X_hat self' = Some X_hat /\
    dot (transpose X_hat) (transpose (self_P self)) = Some A0 /\
    dot A0 (loc_Y_hat loc) = Some A /\
    self_A self' = Some A /\
    self_YPY self' = Some YPY /\
    dot (transpose A) (transpose (self_R self)) = Some AR /\
    self_s self' = trace AR / YPY /\
    forall svd2 self2,
      update_transform svd2 self = Some self2 -> self_s self2 = self_s self'.
Proof.
  intros Hrot Hscale H.
  destruct (update_transform_locals_inv svd _ _ _ H)
    as (PtY & X_hat & YY & YPY & A0 & A & S & UV & d & EPtY & EmuX & EmuY & EX
        & EY & EYY & EYPY & EA0 & EA & _ & _ & _ & _ & ER & Es & _ & _ & _ & _
        & _ & EXh & EYP & EAs).
  rewrite Hrot in ER. injection ER as ER. rewrite <- ER in Es.
  rewrite Hscale in Es.
  apply bind_Some in Es. destruct Es as (AR & EAR & Es). injection Es as Es.
  exists X_hat, A0, A, YPY, AR. repeat (split; [assumption || now symmetry|]).
  intros svd2 self2 H2. unfold update_transform in H2.
  apply bind_Some in H2. destruct H2 as ([loc2 self2'] & H2 & E2).
  injection E2 as ->.
  destruct (update_transform_locals_inv svd2 _ _ _ H2)
    as (PtY2 & X_hat2 & YY2 & YPY2 & A02 & A2 & S2 & UV2 & d2 & EPtY2 & EmuX2
        & EmuY2 & EX2 & EY2 & EYY2 & EYPY2 & EA02 & EA2 & _ & _ & _ & _ & ER2
        & Es2 & _).
  rewrite Hrot in ER2. injection ER2 as ER2. rewrite <- ER2 in Es2.
  rewrite Hscale in Es2.
  assert (PtY2 = PtY) by congruence. subst PtY2.
  assert (EmuXs : loc_muX loc2 = loc_muX loc) by congruence.
  assert (EmuYs : loc_muY loc2 = loc_muY loc) by congruence.
  rewrite EmuXs in EX2. rewrite EmuYs in EY2.
  assert (X_hat2 = X_hat) by congruence. subst X_hat2.
  assert (EYs : loc_Y_hat loc2 = loc_Y_hat loc) by congruence.
  rewrite EYs in EYY2, EA2.
  assert (YY2 = YY) by congruence. subst YY2.
  assert (YPY2 = YPY) by congruence. subst YPY2.
  assert (A02 = A0) by congruence. subst A02.
  assert (A2 = A) by congruence. subst A2.
  rewrite EAR in Es2. simpl in Es2. injection Es2 as <-. now symmetry.
Qed.

(** ** Which components a call assigns (C7) *)

Lemma update_transform_as_locals
    (svd : matrix -> option (matrix * vector * matrix))
    (self self' : RigidRegistration) :
  update_transform svd self = Some self' ->
  exists loc, update_transform_locals svd self = Some (loc, self').
Proof.
  unfold update_transform. intros H.
  apply bind_Some in H. destruct H as ([loc s1] & E & H).
  injection H as <-. now exists loc.
Qed.

(** A disabled component survives one call. *)
Lemma update_transform_keeps
    (svd : matrix -> option (matrix * vector * matrix))
    (self self' : RigidRegistration) (loc : locals) :
  update_transform_locals svd self = Some (loc, self') ->
  (self_do_rot self = false -> self_R self' = self_R self) /\
  (self_do_scale self = false -> self_s self' = self_s self) /\
  (self_do_trans self = false -> self_t self' = self_t self) /\
  self_do_rot self' = self_do_rot self /\
  self_do_scale self' = self_do_scale self /\
  self_do_trans self' = self_do_trans self.
Proof.
  intros H.
  destruct (update_transform_locals_inv svd _ _ _ H)
    as (PtY & X_hat & YY & YPY & A0 & A & S & UV & d & _ & _ & _ & _ & _
        & _ & _ & _ & _ & _ & _ & _ & _ & ER & Es & Et & _ & Ts & Tr & Tt & _).
  repeat split; try assumption.
  - intros F. rewrite F in ER. now injection ER.
  - intros F. rewrite F in Es. now injection Es.
  - intros F. rewrite F in Et. now injection Et.
Qed.

(** C7.  One call assigns exactly the enabled components: an enabled
    rotation becomes [(U diag(C) V)^T], an enabled scale
    [trace(A^T R^T) / YPY], an enabled translation the one-dimensional
    array [muX - s R^T muY]; a disabled component keeps its value, and
    keeps it over any number of calls. *)
Theorem update_transform_toggles
    (svd : matrix -> option (matrix * vector * matrix))
    (self self' self'' : RigidRegistration) (loc : locals) :
  update_transform_locals svd self = Some (loc, self') ->
  estimator_calls svd self self'' ->
  (if self_do_rot self
   then exists UC UCV,
          dot (loc_U loc) (diag (loc_C loc)) = Some UC /\
          dot UC (loc_V loc) = Some UCV /\
          self_R self' = transpose UCV
   else self_R self' = self_R self /\ self_R self'' = self_R self) /\
  (if self_do_scale self
   then exists A YPY AR,
          self_A self' = Some A /\ self_YPY self' = Some YPY /\
          dot (transpose A) (transpose (self_R self')) = Some AR /\
          self_s self' = trace AR / YPY
   else self_s self' = self_s self /\ self_s self'' = self_s self) /\
  (if self_do_trans self
   then exists Rmu d,
          dot_mv (transpose (self_R self')) (loc_muY loc) = Some Rmu /\
          subtract1 (loc_muX loc) (scale1 (self_s self') Rmu) = Some d /\
          self_t self' = Arr1 d
   else self_t self' = self_t self /\ self_t self'' = self_t self).
Proof.
  intros H Calls.
  assert (Many :
    (self_do_rot self = false -> self_R self'' = self_R self) /\
    (self_do_scale self = false -> self_s self'' = self_s self) /\
    (self_do_trans self = false -> self_t self'' = self_t self)).
  { clear H. induction Calls as [self | self self1 self2 e Step _ IH].
    - auto.
    - destruct (update_transform_as_locals svd _ _ Step) as (loc1 & Step').
      destruct (update_transform_keeps svd _ _ _ Step')
        as (KR & Ks & Kt & Tr & Ts & Tt).
      destruct IH as (IR & Is & It). simpl in *.
      repeat split; intros F.
      + rewrite IR by congruence. auto.
      + rewrite Is by congruence. auto.
      + rewrite It by congruence. auto. }
  destruct Many as (MR & Ms & Mt).
  destruct (update_transform_keeps svd _ _ _ H) as (KR & Ks & Kt & _).
  destruct (update_transform_locals_inv svd _ _ _ H)
    as (PtY & X_hat & YY & YPY & A0 & A & S & UV & d & _ & _ & _ & _ & _
        & _ & _ & _ & _ & _ & _ & _ & _ & ER & Es & Et & _ & _ & _ & _ & _
        & EYP & EA).
  split; [|split].
  - destruct (self_do_rot self); [|auto].
    apply bind_Some in ER. destruct ER as (UC & EUC & ER).
    apply bind_Some in ER. destruct ER as (UCV & EUCV & ER).
    injection ER as <-. now exists UC, UCV.
  - destruct (self_do_scale self); [|auto].
    apply bind_Some in Es. destruct Es as (AR & EAR & Es).
    injection Es as <-. now exists A, YPY, AR.
  - destruct (self_do_trans self); [|auto].
    apply bind_Some in Et. destruct Et as (Rmu & ERmu & Et).
    apply bind_Some in Et. destruct Et as (d' & Ed' & Et).
    injection Et as <-. now exists Rmu, d'.
Qed.

(** ** Construction (C8, and the seed half of C9) *)

Section Construction.

Variable is_positive_semi_definite : ndarray -> bool.

Local Abbreviation init := (__init__ is_positive_semi_definite).
Local Abbreviation accepted := (seeds_accepted is_positive_semi_definite).

(** A rotation seed that passes its check is a two-dimensional array. *)
Lemma R_accepted_inv (D : nat) (R : ndarray) :
  R_refused is_positive_semi_definite D (Some R) = false -> exists a, R = Arr2 a.
Proof.
  destruct R; simpl; try discriminate. eauto.
Qed.

(** The translation seed passes its check exactly when its shape is
    [(1, D)]. *)
Lemma t_refused_spec (D : nat) (t : ndarray) :
  t_refused D (Some t) = false <-> shape t = [1%nat; D].
Proof.
  destruct t as [x | v | a | d1 d2 d3 more data]; simpl;
    try (split; [discriminate | intros [=]]).
  rewrite !orb_false_iff, !negb_false_iff, !Nat.eqb_eq.
  split; [intros (E1 & E2); congruence | intros [= -> ->]; auto].
Qed.

(** The outcome of the constructor, by cases. *)
Lemma init_outcome (base : EMRegistration) (R t : option ndarray)
    (s : option pyobj) (a b c : bool) :
  if accepted (self_D base) R t s
  then if a || b || c
       then exists self, init base R t s a b c = Ok self /\
              super self = base /\
              self_do_scale self = a /\ self_do_rot self = b /\ self_do_trans self = c
       else init base R t s a b c = Raise AssertionError
  else init base R t s a b c = Raise ValueError.
Proof.
  unfold seeds_accepted, __init__.
  destruct (self_D base =? 2) eqn:D2, (self_D base =? 3) eqn:D3; simpl;
    try reflexivity;
    (destruct (R_refused _ _ R) eqn:ER; simpl; [reflexivity|];
     destruct (t_refused _ t) eqn:Et; simpl; [reflexivity|];
     destruct (s_refused s) eqn:Es; simpl; [reflexivity|];
     destruct R as [R|];
     [ destruct (R_accepted_inv _ _ ER) as (m & ->) |];
     destruct (a || b || c); simpl; eauto 10).
Qed.

(** C8.  With the three toggles disabled construction raises, and it is
    the toggle assertion that fails once the dimension and the seeds are
    accepted; with a toggle enabled the assertion never fails, and
    construction succeeds whenever the dimension and the seeds are
    accepted. *)
Theorem init_rejects_all_toggles_disabled
    (base : EMRegistration) (R t : option ndarray) (s : option pyobj)
    (a b c : bool) :
  (a || b || c = false ->
     exists e, init base R t s a b c = Raise e /\
       (accepted (self_D base) R t s = true -> e = AssertionError)) /\
  (a || b || c = true ->
     init base R t s a b c <> Raise AssertionError /\
     (accepted (self_D base) R t s = true ->
        exists self, init base R t s a b c = Ok self /\
          self_do_scale self = a /\ self_do_rot self = b /\ self_do_trans self = c)).
Proof.
  pose proof (init_outcome base R t s a b c) as O.
  split; intros T; rewrite T in O.
  - destruct (accepted _ R t s); rewrite O.
    + exists AssertionError. auto.
    + exists ValueError. split; [reflexivity | discriminate].
  - destruct (accepted _ R t s).
    + destruct O as (self & -> & _ & Ts). split; [discriminate|].
      intros _. now exists self.
    + rewrite O. split; discriminate.
Qed.

(** A translation seed of any other shape than [(1, D)] is refused. *)
Lemma init_refuses_translation_seed
    (base : EMRegistration) (R : option ndarray) (t : ndarray)
    (s : option pyobj) (a b c : bool) :
  shape t <> [1%nat; self_D base] ->
  init base R (Some t) s a b c = Raise ValueError.
Proof.
  intros Ht. pose proof (init_outcome base R (Some t) s a b c) as O.
  assert (Et : t_refused (self_D base) (Some t) = true).
  { destruct (t_refused _ _) eqn:E; [reflexivity|].
    now apply t_refused_spec in E. }
  unfold seeds_accepted in O. rewrite Et in O.
  rewrite andb_false_r in O. exact O.
Qed.

End Construction.

(** ** Translation update (the estimator half of C9) *)

Lemma dot_mv_shape (a : matrix) (v w : vector) :
  dot_mv a v = Some w ->
  ncols a = length v /\ length w = nrows a /\
  forall i, (i < nrows a)%nat ->
    vitem w i = rsum (ncols a) (fun k => item a i k * vitem v k).
Proof.
  unfold dot_mv. destruct (Nat.eqb_spec (ncols a) (length v)); [|discriminate].
  intros [= <-]. split; [assumption|]. split; [apply tab1_length|].
  intros i Hi. now rewrite tab1_vitem.
Qed.

Lemma det_square (a : matrix) (d : R) : linalg.det a = Some d -> nrows a = ncols a.
Proof.
  unfold linalg.det. destruct (Nat.eqb_spec (nrows a) (ncols a)); [auto | discriminate].
Qed.

(** The rotation stored by a call is [D x D], provided the first factor of
    the decomposition has [D] rows. *)
Lemma update_transform_rotation_shape
    (svd : matrix -> option (matrix * vector * matrix))
    (self self' : RigidRegistration) (loc : locals) :
  wf_transform self ->
  nrows (loc_U loc) = self_D self ->
  update_transform_locals svd self = Some (loc, self') ->
  nrows (self_R self') = self_D self /\ ncols (self_R self') = self_D self.
Proof.
  intros [Rn Rm _] HU H.
  destruct (update_transform_locals_inv svd _ _ _ H)
    as (PtY & X_hat & YY & YPY & A0 & A & S & UV & d & _ & _ & _ & _ & _
        & _ & _ & _ & _ & _ & EUV & Ed & _ & ER & _).
  destruct (self_do_rot self).
  - apply bind_Some in ER. destruct ER as (UC & EUC & ER).
    apply bind_Some in ER. destruct ER as (UCV & EUCV & ER).
    injection ER as <-.
    destruct (dot_shape _ _ _ EUV) as (_ & UVn & UVm & _).
    destruct (dot_shape _ _ _ EUC) as (_ & UCn & _).
    destruct (dot_shape _ _ _ EUCV) as (_ & UCVn & UCVm & _).
    apply det_square in Ed.
    rewrite transpose_nrows, transpose_ncols. split; congruence.
  - injection ER as <-. auto.
Qed.

(** The translation assigned by a call with translation enabled: a
    one-dimensional array of length [D] with entries
    [muX_j - s (R^T muY)_j]. *)
Lemma translation_update_entries
    (svd : matrix -> option (matrix * vector * matrix))
    (self self' : RigidRegistration) (loc : locals) :
  wf_statistics self -> wf_transform self ->
  nrows (loc_U loc) = self_D self ->
  self_do_trans self = true ->
  update_transform_locals svd self = Some (loc, self') ->
  exists v,
    self_t self' = Arr1 v /\
    shape (self_t self') = [self_D self] /\
    forall j, (j < self_D self)%nat ->
      vitem v j
      = vitem (loc_muX loc) j
        - self_s self'
          * rsum (self_D self) (fun k => item (self_R self') k j * vitem (loc_muY loc) k).
Proof.
  intros W Wt HU Ht H.
  destruct (update_transform_rotation_shape svd _ _ _ Wt HU H) as (Rn & Rm).
  destruct (centring_steps svd _ _ _ W H) as ((LX & _) & (LY & _) & _).
  destruct (update_transform_locals_inv svd _ _ _ H)
    as (PtY & X_hat & YY & YPY & A0 & A & S & UV & d & _ & _ & _ & _ & _
        & _ & _ & _ & _ & _ & _ & _ & _ & _ & _ & Et & _).
  rewrite Ht in Et.
  apply bind_Some in Et. destruct Et as (Rmu & ERmu & Et).
  apply bind_Some in Et. destruct Et as (v & Ev & Et).
  injection Et as Et. exists v. rewrite <- Et.
  destruct (dot_mv_shape _ _ _ ERmu) as (_ & LR & VR).
  rewrite transpose_nrows in LR, VR. rewrite transpose_ncols in VR.
  destruct (broadcast1_same Rminus (loc_muX loc) (scale1 (self_s self') Rmu) (self_D self))
    as (v' & Ev' & Lv & Vv); [assumption | rewrite scale1_length; congruence |].
  unfold subtract1 in Ev. rewrite Ev' in Ev. injection Ev as ->.
  split; [reflexivity|]. split; [simpl; now rewrite Lv|].
  intros j Hj. rewrite (Vv j Hj), scale1_vitem by congruence.
  rewrite VR by congruence. rewrite Rn. f_equal. f_equal.
  apply rsum_ext. intros k Hk. now rewrite transpose_item by congruence.
Qed.

(** C9, as the code has it.  A translation seed whose shape is not
    [(1, D)] is refused by the constructor; but the translation stored by
    a call of the estimator is a one-dimensional array of length [D] (shape
    [(D,)]), with entries [muX_j - s (R^T muY)_j]. *)
Theorem translation_shapes
    (svd : matrix -> option (matrix * vector * matrix))
    (is_positive_semi_definite : ndarray -> bool)
    (base : EMRegistration) (R0 : option ndarray) (t0 : ndarray)
    (s0 : option pyobj) (a b c : bool)
    (self self' : RigidRegistration) (loc : locals) :
  (shape t0 <> [1%nat; self_D base] ->
   __init__ is_positive_semi_definite base R0 (Some t0) s0 a b c = Raise ValueError) /\
  (wf_statistics self -> wf_transform self ->
   nrows (loc_U loc) = self_D self ->
   self_do_trans self = true ->
   update_transform_locals svd self = Some (loc, self') ->
   exists v,
     self_t self' = Arr1 v /\
     shape (self_t self') = [self_D self] /\
     forall j, (j < self_D self)%nat ->
       vitem v j
       = vitem (loc_muX loc) j
         - self_s self'
           * rsum (self_D self) (fun k => item (self_R self') k j * vitem (loc_muY loc) k)).
Proof.
  split; [apply init_refuses_translation_seed | apply translation_update_entries].
Qed.

(** ** Variance and objective (C4, C5) *)

(** A call that returns has read the three stored statistics. *)
Lemma update_variance_inv (self self' : RigidRegistration) :
  update_variance self = Some self' ->
  exists A AR X_hat XX xPx YPY,
    self_A self = Some A /\
    dot A (self_R self) = Some AR /\
    self_X_hat self = Some X_hat /\
    multiply X_hat X_hat = Some XX /\
    dot_vv (self_Pt1 self) (sum_axis1 XX) = Some xPx /\
    self_YPY self = Some YPY /\
    self' = with_super self
      (set_variance self
         ((xPx - 2 * self_s self * trace AR + self_s self * self_s self * YPY)
            / (2 * self_sigma2 self)
          + INR (self_D self) * self_Np self / 2 * np.log (self_sigma2 self))
         (np.abs
            ((xPx - 2 * self_s self * trace AR + self_s self * self_s self * YPY)
               / (2 * self_sigma2 self)
             + INR (self_D self) * self_Np self / 2 * np.log (self_sigma2 self)
             - self_q self))
         (if Rle_dec ((xPx - self_s self * trace AR)
                        / (self_Np self * INR (self_D self))) 0
          then self_tolerance self / 10
          else (xPx - self_s self * trace AR)
                 / (self_Np self * INR (self_D self)))).
Proof.
  unfold update_variance, transpose1. intros H.
  apply bind_Some in H; destruct H as (A & E1 & H).
  apply bind_Some in H; destruct H as (AR & E2 & H).
  apply bind_Some in H; destruct H as (X_hat & E3 & H).
  apply bind_Some in H; destruct H as (XX & E4 & H).
  apply bind_Some in H; destruct H as (xPx & E5 & H).
  apply bind_Some in H; destruct H as (YPY & E6 & H).
  injection H as <-.
  exists A, AR, X_hat, XX, xPx, YPY. repeat split; assumption.
Qed.

(** C4.  [q] is the objective
    [(xPx - 2 s trAR + s^2 YPY) / (2 sigma2) + D Np / 2 ln(sigma2)] at the
    [sigma2] held before the call, [diff] is [|q - q_prev|], and [sigma2]
    receives [(xPx - s trAR) / (Np D)] (replaced by the floor of C5 when it
    is not positive); [trAR = trace(A R)] and [xPx] is the [Pt1]-weighted
    sum of the squared norms of the rows of [X_hat], for the stored [A],
    [X_hat] and [YPY]. *)
Theorem update_variance_objective (self self' : RigidRegistration) :
  update_variance self = Some self' ->
  exists A X_hat YPY AR,
    self_A self = Some A /\
    self_X_hat self = Some X_hat /\
    self_YPY self = Some YPY /\
    dot A (self_R self) = Some AR /\
    let trAR := trace AR in
    let xPx := rsum (nrows X_hat)
                 (fun n => vitem (self_Pt1 self) n * row_norm2 X_hat n) in
    let s := self_s self in
    self_q self'
    = (xPx - 2 * s * trAR + s ^ 2 * YPY) / (2 * self_sigma2 self)
      + INR (self_D self) * self_Np self / 2 * ln (self_sigma2 self) /\
    self_diff self' = Rabs (self_q self' - self_q self) /\
    self_sigma2 self'
    = (if Rle_dec ((xPx - s * trAR) / (self_Np self * INR (self_D self))) 0
       then self_tolerance self / 10
       else (xPx - s * trAR) / (self_Np self * INR (self_D self))).
Proof.
  intros H.
  destruct (update_variance_inv _ _ H)
    as (A & AR & X_hat & XX & xPx & YPY & EA & EAR & EX & EXX & ExPx & EYPY & ->).
  exists A, X_hat, YPY, AR. repeat (split; [assumption|]).
  destruct (weighted_row_norms _ _ _ _ EXX ExPx) as (_ & <-).
  cbv zeta.
  replace (self_s self ^ 2) with (self_s self * self_s self) by ring.
  repeat split; reflexivity.
Qed.


(** ** Applying the transform (C6) *)

Lemma bdim_one (n : nat) : bdim n 1 = Some n.
Proof.
  unfold bdim. destruct (Nat.eqb_spec n 1) as [->|]; reflexivity.
Qed.

(** Adding a single row to every row of an array. *)
Lemma add_row (a b : matrix) :
  nrows b = 1%nat -> ncols b = ncols a ->
  exists c, add a b = Some c /\ nrows c = nrows a /\ ncols c = ncols a /\
    forall i j, (i < nrows a)%nat -> (j < ncols a)%nat ->
      item c i j = item a i j + item b 0 j.
Proof.
  intros Hn Hm. unfold add, broadcast2.
  rewrite Hn, Hm, bdim_one, bdim_same. simpl.
  eexists; split; [reflexivity|].
  split; [apply tab2_nrows|]. split; [apply tab2_ncols|].
  intros i j Hi Hj. rewrite tab2_item by assumption.
  now rewrite !bidx_lt by assumption.
Qed.

Lemma scale_shape (x : R) (a : matrix) :
  nrows (scale x a) = nrows a /\ ncols (scale x a) = ncols a /\
  forall i j, (i < nrows a)%nat -> (j < ncols a)%nat ->
    item (scale x a) i j = x * item a i j.
Proof.
  unfold scale. split; [apply tab2_nrows|]. split; [reflexivity|].
  intros. now rewrite tab2_item.
Qed.

(** [s * np.dot(cloud, R) + t] on a cloud with [D] columns: the result has
    the rows of the cloud, [D] columns and entries
    [s (sum_k cloud[i,k] R[k,j]) + t[j]]. *)
Lemma rigid_image (self : RigidRegistration) (cloud : matrix) :
  wf_transform self ->
  ncols cloud = self_D self ->
  exists out,
    (let? YR := dot cloud (self_R self) in
     add_nd (scale (self_s self) YR) (self_t self)) = Some out /\
    nrows out = nrows cloud /\ ncols out = self_D self /\
    forall i j, (i < nrows cloud)%nat -> (j < self_D self)%nat ->
      item out i j
      = self_s self
        * rsum (self_D self) (fun k => item cloud i k * item (self_R self) k j)
        + t_entry (self_t self) j.
Proof.
  intros [Rn Rm Ht] Hc.
  destruct (dot_defined cloud (self_R self)) as (YR & EYR); [congruence|].
  rewrite EYR. simpl.
  destruct (dot_shape _ _ _ EYR) as (_ & Yn & Ym & Yij).
  destruct (scale_shape (self_s self) YR) as (Sn & Sm & Sij).
  assert (Row : forall b, nrows b = 1%nat -> ncols b = self_D self ->
            exists out, add (scale (self_s self) YR) b = Some out /\
              nrows out = nrows cloud /\ ncols out = self_D self /\
              forall i j, (i < nrows cloud)%nat -> (j < self_D self)%nat ->
                item out i j
                = self_s self
                  * rsum (self_D self)
                      (fun k => item cloud i k * item (self_R self) k j)
                  + item b 0 j).
  { intros b Bn Bm.
    destruct (add_row (scale (self_s self) YR) b) as (out & E & On & Om & Oij);
      [assumption | congruence |].
    exists out. split; [assumption|].
    split; [congruence|]. split; [congruence|].
    intros i j Hi Hj. rewrite Oij, Sij, Yij by congruence.
    now rewrite Hc. }
  destruct (self_t self) as [x | v | b | d1 d2 d3 more data]; simpl in Ht |- *.
  - destruct Ht as [Ht | Ht]; discriminate.
  - destruct Ht as [Ht | Ht]; [discriminate|]. injection Ht as Lv.
    apply (Row (Mat (length v) [v])); [reflexivity | assumption].
  - destruct Ht as [Ht | Ht]; [|discriminate]. injection Ht as Bn Bm.
    now apply Row.
  - destruct Ht as [Ht | Ht]; discriminate.
Qed.

(** C6.  Without an argument the method stores [s Y R + t] as [TY],
    changes nothing else and returns [None]; with a cloud it returns
    [s cloud R + t] and the object is the one it was. *)
Theorem transform_point_cloud_modes (self : RigidRegistration) (cloud : matrix) :
  wf_transform self ->
  ncols (self_Y self) = self_D self ->
  ncols cloud = self_D self ->
  (exists TY,
     transform_point_cloud self None
     = Some (with_super self (set_TY self TY), None) /\
     nrows TY = nrows (self_Y self) /\ ncols TY = self_D self /\
     forall i j, (i < nrows (self_Y self))%nat -> (j < self_D self)%nat ->
       item TY i j
       = self_s self
         * rsum (self_D self) (fun k => item (self_Y self) i k * item (self_R self) k j)
         + t_entry (self_t self) j) /\
  (exists out,
     transform_point_cloud self (Some cloud) = Some (self, Some out) /\
     nrows out = nrows cloud /\ ncols out = self_D self /\
     forall i j, (i < nrows cloud)%nat -> (j < self_D self)%nat ->
       item out i j
       = self_s self
         * rsum (self_D self) (fun k => item cloud i k * item (self_R self) k j)
         + t_entry (self_t self) j).
Proof.
  intros W HY Hc. split.
  - destruct (rigid_image self (self_Y self) W HY) as (TY & E & Sh).
    exists TY. split; [|exact Sh].
    unfold transform_point_cloud.
    apply bind_Some in E. destruct E as (YR & EYR & E).
    rewrite EYR. simpl. now rewrite E.
  - destruct (rigid_image self cloud W Hc) as (out & E & Sh).
    exists out. split; [|exact Sh].
    unfold transform_point_cloud.
    apply bind_Some in E. destruct E as (YR & EYR & E).
    rewrite EYR. simpl. now rewrite E.
Qed.

(** In the mutating mode only [TY] differs afterwards. *)
Lemma set_TY_frame (self : RigidRegistration) (TY : matrix) :
  let self' := with_super self (set_TY self TY) in
  self_TY self' = TY /\
  self_R self' = self_R self /\ self_t self' = self_t self /\
  self_s self' = self_s self /\ self_sigma2 self' = self_sigma2 self /\
  self_q self' = self_q self /\ self_diff self' = self_diff self /\
  self_X self' = self_X self /\ self_Y self' = self_Y self.
Proof. repeat split. Qed.

(** ** The estimator returns on well-shaped statistics *)

Lemma bind_ret {A B : Type} (a : A) (k : A -> option B) : bind (Some a) k = k a.
Proof. reflexivity. Qed.

Lemma dot_vv_defined (u v : vector) :
  length u = length v -> exists x, dot_vv u v = Some x.
Proof. intros E. unfold dot_vv. rewrite E, Nat.eqb_refl. eauto. Qed.

Lemma dot_mv_defined (a : matrix) (v : vector) :
  ncols a = length v -> exists w, dot_mv a v = Some w.
Proof. intros E. unfold dot_mv. rewrite E, Nat.eqb_refl. eauto. Qed.

Lemma det_defined (a : matrix) :
  nrows a = ncols a -> exists d, linalg.det a = Some d.
Proof. intros E. unfold linalg.det. rewrite E, Nat.eqb_refl. eauto. Qed.

Lemma setitem_last_defined (D : nat) (d : R) :
  (0 < D)%nat -> exists C, setitem (ones D) (Z.of_nat D - 1) d = Some C.
Proof.
  intros HD. unfold setitem.
  rewrite ones_length, (py_index_last_defined D HD). simpl. eauto.
Qed.

(** On statistics and a transform of the right shapes, and with a
    decomposition routine that returns [D x D] factors for a [D x D]
    argument, [update_transform] returns. *)
Lemma update_transform_returns
    (svd : matrix -> option (matrix * vector * matrix))
    (self : RigidRegistration) :
  wf_statistics self -> wf_transform self -> (0 < self_D self)%nat ->
  (forall A, nrows A = self_D self -> ncols A = self_D self ->
     exists U S V, svd A = Some (U, S, V) /\
       nrows U = self_D self /\ ncols U = self_D self /\
       nrows V = self_D self /\ ncols V = self_D self) ->
  exists loc self', update_transform_locals svd self = Some (loc, self').
Proof.
  intros [Xn Xm Yn Ym Pn Pm PXm P1l Pt1l] [Rn Rm _] HD Hsvd.
  unfold update_transform_locals, transpose1. cbv zeta.
  destruct (dot_defined (transpose (self_P self)) (self_Y self))
    as (PtY & EPtY); [rewrite transpose_ncols; congruence|].
  rewrite EPtY, bind_ret.
  destruct (dot_shape _ _ _ EPtY) as (_ & _ & PtYm & _).
  destruct (centroid_entries (self_PX self) (self_Np self) (self_D self) PXm)
    as (LX & _).
  destruct (centroid_entries PtY (self_Np self) (self_D self))
    as (LY & _); [congruence|].
  set (muX := divide (sum_axis0 (self_PX self)) (self_Np self)) in *.
  set (muY := divide (sum_axis0 PtY) (self_Np self)) in *.
  destruct (tile_shape muX (self_N self)) as (TXn & TXm & _).
  destruct (tile_shape muY (self_M self)) as (TYn & TYm & _).
  destruct (broadcast2_same Rminus (self_X self) (tile muX (self_N self))
              (self_N self) (self_D self))
    as (X_hat & EX & Xhn & Xhm & _); try congruence.
  destruct (broadcast2_same Rminus (self_Y self) (tile muY (self_M self))
              (self_M self) (self_D self))
    as (Y_hat & EY & Yhn & Yhm & _); try congruence.
  unfold subtract. rewrite EX, bind_ret, EY, bind_ret.
  destruct (multiply_self_defined Y_hat) as (YY & EYY).
  destruct (multiply_self _ _ EYY) as (YYn & _).
  rewrite EYY, bind_ret.
  destruct (dot_vv_defined (self_P1 self) (sum_axis1 YY)) as (YPY & EYPY);
    [rewrite sum_axis1_length; congruence|].
  rewrite EYPY, bind_ret.
  destruct (dot_defined (transpose X_hat) (transpose (self_P self)))
    as (A0 & EA0); [rewrite transpose_ncols, transpose_nrows; congruence|].
  destruct (dot_shape _ _ _ EA0) as (_ & A0n & A0m & _).
  rewrite transpose_nrows in A0n. rewrite transpose_ncols in A0m.
  rewrite EA0, bind_ret.
  destruct (dot_defined A0 Y_hat) as (A & EA); [congruence|].
  destruct (dot_shape _ _ _ EA) as (_ & An & Am & _).
  rewrite EA, bind_ret.
  destruct (Hsvd A) as (U & S & V & Esvd & Un & Um & Vn & Vm); try congruence.
  rewrite Esvd, bind_ret.
  destruct (dot_defined U V) as (UV & EUV); [congruence|].
  destruct (dot_shape _ _ _ EUV) as (_ & UVn & UVm & _).
  rewrite EUV, bind_ret.
  destruct (det_defined UV) as (d & Ed); [congruence|].
  rewrite Ed, bind_ret.
  destruct (setitem_last_defined (self_D self) d HD) as (C & EC).
  destruct (correction_vector _ _ _ EC) as (LC & _).
  rewrite EC, bind_ret.
  assert (ER : exists R',
    (if self_do_rot self
     then (let? UC := dot U (diag C) in
           let? UCV := dot UC V in Some (transpose UCV))
     else Some (self_R self)) = Some R' /\
    nrows R' = self_D self /\ ncols R' = self_D self).
  { destruct (self_do_rot self); [|eauto].
    destruct (dot_defined U (diag C)) as (UC & EUC);
      [unfold diag; rewrite tab2_nrows; congruence|].
    destruct (dot_shape _ _ _ EUC) as (_ & UCn & UCm & _).
    unfold diag in UCm. rewrite tab2_ncols in UCm.
    destruct (dot_defined UC V) as (UCV & EUCV); [congruence|].
    destruct (dot_shape _ _ _ EUCV) as (_ & UCVn & UCVm & _).
    rewrite EUC, bind_ret, EUCV, bind_ret.
    exists (transpose UCV). rewrite transpose_nrows, transpose_ncols.
    repeat split; congruence. }
  destruct ER as (R' & -> & R'n & R'm). rewrite bind_ret.
  assert (Es : exists s',
    (if self_do_scale self
     then (let? AR := dot (transpose A) (transpose R') in Some (trace AR / YPY))
     else Some (self_s self)) = Some s').
  { destruct (self_do_scale self); [|eauto].
    destruct (dot_defined (transpose A) (transpose R')) as (AR & EAR);
      [rewrite transpose_ncols, transpose_nrows; congruence|].
    rewrite EAR, bind_ret. eauto. }
  destruct Es as (s' & ->). rewrite bind_ret.
  assert (Et : exists t',
    (if self_do_trans self
     then (let? Rmu := dot_mv (transpose R') muY in
           let? d := subtract1 muX (scale1 s' Rmu) in Some (Arr1 d))
     else Some (self_t self)) = Some t').
  { destruct (self_do_trans self); [|eauto].
    destruct (dot_mv_defined (transpose R') muY) as (Rmu & ERmu);
      [rewrite transpose_ncols; congruence|].
    destruct (dot_mv_shape _ _ _ ERmu) as (_ & LR & _).
    rewrite transpose_nrows in LR.
    destruct (broadcast1_same Rminus muX (scale1 s' Rmu) (self_D self))
      as (v & Ev & _); [assumption | rewrite scale1_length; congruence |].
    unfold subtract1. rewrite ERmu, bind_ret, Ev, bind_ret. eauto. }
  destruct Et as (t' & ->). rewrite bind_ret.
  eauto.
Qed.

(** ** The variance update returns after the estimator *)

Lemma update_variance_returns (self : RigidRegistration)
    (A X_hat : matrix) (YPY : R) :
  self_A self = Some A -> ncols A = nrows (self_R self) ->
  self_X_hat self = Some X_hat -> length (self_Pt1 self) = nrows X_hat ->
  self_YPY self = Some YPY ->
  exists self', update_variance self = Some self'.
Proof.
  intros EA HA EX HX EY. unfold update_variance, transpose1.
  rewrite EA, bind_ret.
  destruct (dot_defined A (self_R self) HA) as (AR & ->). rewrite bind_ret.
  rewrite EX, bind_ret.
  destruct (multiply_self_defined X_hat) as (XX & EXX).
  destruct (multiply_self _ _ EXX) as (XXn & _).
  rewrite EXX, bind_ret.
  destruct (dot_vv_defined (self_Pt1 self) (sum_axis1 XX)) as (xPx & ->);
    [rewrite sum_axis1_length; congruence|].
  rewrite bind_ret, EY, bind_ret. eauto.
Qed.

(** After a call of the estimator on well-shaped statistics,
    [update_variance] returns. *)
Lemma update_variance_after_update_transform
    (svd : matrix -> option (matrix * vector * matrix))
    (self self' : RigidRegistration) (loc : locals) :
  wf_statistics self -> wf_transform self ->
  nrows (loc_U loc) = self_D self ->
  update_transform_locals svd self = Some (loc, self') ->
  exists self'', update_variance self' = Some self''.
Proof.
  intros W Wt HU H.
  destruct (update_transform_rotation_shape svd _ _ _ Wt HU H) as (Rn & _).
  destruct (centring_steps svd _ _ _ W H)
    as (_ & _ & (X_hat & EX & Xn & _) & _ & Ym & _).
  destruct (update_transform_locals_inv svd _ _ _ H)
    as (PtY & X_hat' & YY & YPY & A0 & A & S & UV & d & _ & _ & _ & _ & _
        & _ & _ & _ & EA & _ & _ & _ & _ & _ & _ & _ & Esup & _ & _ & _ & _
        & EYP & EAs).
  destruct (dot_shape _ _ _ EA) as (_ & _ & Am & _).
  apply (update_variance_returns self' A X_hat YPY); try assumption.
  - congruence.
  - rewrite Esup, Xn. apply (wf_Pt1_len _ W).
Qed.

(** ** The worked step, evaluated *)

(** Equality of two evaluated arrays, entry by entry. *)
Ltac same_entries :=
  lazymatch goal with
  | |- @eq R _ _ => lra
  | |- ?f ?a = ?g ?b =>
      first [ reflexivity
            | apply (@f_equal2 _ _ _ (fun h x => h x) f g a b); same_entries ]
  | |- _ => reflexivity
  end.

Lemma demo_wf_statistics (self : RigidRegistration) :
  super self = em_demo -> wf_statistics self.
Proof. intros E. split; rewrite E; reflexivity. Qed.

Lemma demo_update (a b c : bool) :
  update_transform_locals svd_diagonal (demo a b c)
  = Some (demo_locals, demo_updated a b c).
Proof.
  destruct a, b, c; np_eval; same_entries.
Qed.

Lemma seeded_update (s : R) (X_hat : option matrix) (YPY : option R)
    (A : option matrix) :
  update_transform_locals svd_diagonal (seeded s X_hat YPY A)
  = Some (demo_locals, seeded_updated).
Proof.
  np_eval; same_entries.
Qed.

(** A routine that returns other factors leaves the scale where it is
    when the rotation is disabled. *)
Lemma seeded_update_swap :
  exists loc,
    update_transform_locals svd_swap (seeded 2 None None None)
    = Some (loc, seeded_updated).
Proof.
  eexists. np_eval. same_entries.
Qed.

Lemma identity2_orthogonal : orthogonal 2 identity2.
Proof.
  split.
  - split; [reflexivity | reflexivity |].
    repeat constructor.
  - np_eval. same_entries.
Qed.

(** On the worked step the routine returns a genuine decomposition:
    [A = U diag(S) V] with orthogonal [U] and [V]. *)
Lemma svd_diagonal_exact_on_demo :
  svd_diagonal A_demo = Some (identity2, [7/5; 1], identity2) /\
  (let? US := dot identity2 (diag [7/5; 1]) in dot US identity2) = Some A_demo.
Proof.
  split; np_eval; same_entries.
Qed.

Lemma demo_update_variance (a b c : bool) :
  update_variance (demo_updated a b c) = Some (demo_variance a b c).
Proof.
  unfold update_variance. np_eval.
  rewrite ln_1.
  match goal with
  | |- context [Rle_dec ?x 0] =>
      destruct (Rle_dec x 0) as [_ | N]; [|exfalso; apply N; lra]
  end.
  match goal with
  | |- context [Rabs ?x] => replace x with 0 by lra
  end.
  rewrite Rabs_R0. same_entries.
Qed.

(** The statistics of the worked step are those of its correspondence
    matrix: [PX = P X], [P1] and [Pt1] are the row and column sums of [P],
    and [Np] is its total mass. *)
Lemma em_demo_consistent :
  (exists PX, dot (self_P em_demo) (self_X em_demo) = Some PX /\
     forall i j, (i < 4)%nat -> (j < 2)%nat ->
       item PX i j = item (self_PX em_demo) i j) /\
  (forall m, (m < 4)%nat ->
     vitem (sum_axis1 (self_P em_demo)) m = vitem (self_P1 em_demo) m) /\
  (forall n, (n < 4)%nat ->
     vitem (sum_axis0 (self_P em_demo)) n = vitem (self_Pt1 em_demo) n) /\
  rsum 4 (fun m => vitem (self_P1 em_demo) m) = self_Np em_demo.
Proof.
  split.
  { eexists. split; [reflexivity|].
    intros i j Hi Hj.
    do 4 (destruct i as [|i]; [do 2 (destruct j as [|j]; [np_eval; lra|]); lia|]).
    lia. }
  split.
  { intros m Hm. do 4 (destruct m as [|m]; [np_eval; lra|]). lia. }
  split.
  { intros n Hn. do 4 (destruct n as [|n]; [np_eval; lra|]). lia. }
  np_eval. lra.
Qed.

(** The object of the worked step is the one the constructor builds
    without seeds. *)
Lemma demo_constructed (a b c : bool) :
  a || b || c = true ->
  __init__ psd_any em_demo None None None a b c = Ok (demo a b c).
Proof.
  intros T. unfold __init__. simpl. now rewrite T.
Qed.

Lemma demo_wf_transform (a b c : bool) : wf_transform (demo a b c).
Proof. split; [reflexivity | reflexivity | left; reflexivity]. Qed.

Lemma demo_updated_wf_transform (a b c : bool) : wf_transform (demo_updated a b c).
Proof.
  split; [reflexivity | reflexivity |].
  destruct c; [right | left]; reflexivity.
Qed.

Lemma seeded_update_call (s : R) (X_hat : option matrix) (YPY : option R)
    (A : option matrix) :
  update_transform svd_diagonal (seeded s X_hat YPY A) = Some seeded_updated.
Proof.
  unfold update_transform. now rewrite seeded_update.
Qed.

(** Two iterations from the seeded object. *)
Lemma seeded_two_calls :
  estimator_calls svd_diagonal (seeded 2 None None None) seeded_updated.
Proof.
  apply (calls_more _ _ seeded_updated seeded_updated em_demo);
    [apply seeded_update_call|].
  apply (calls_more _ _ seeded_updated seeded_updated em_demo);
    [apply seeded_update_call|].
  apply calls_none.
Qed.

(** ** The theorems on the worked step *)

(** C1 on the worked step: the routine is called on the stored
    cross-covariance [diag(7/5, 1)] and returns [U = V = I];
    [det(U V) = 1], [C = (1, 1)] and the new rotation is
    [(U diag(C) V)^T]. *)
Lemma update_transform_rotation_witness :
  exists A S UV d,
    self_A (demo_updated true true true) = Some A /\
    svd_diagonal A = Some (identity2, S, identity2) /\
    dot identity2 identity2 = Some UV /\
    linalg.det UV = Some d /\
    length (loc_C demo_locals) = 2%nat /\
    vitem (loc_C demo_locals) 0 = 1 /\
    vitem (loc_C demo_locals) 1 = sign d /\
    exists UC UCV,
      dot identity2 (diag (loc_C demo_locals)) = Some UC /\
      dot UC identity2 = Some UCV /\
      self_R (demo_updated true true true) = transpose UCV.
Proof.
  destruct (update_transform_rotation svd_diagonal (demo true true true)
              (demo_updated true true true) demo_locals
              (or_introl eq_refl) (demo_update true true true)
              identity2_orthogonal identity2_orthogonal)
    as (X_hat & A0 & A & S & UV & d & _ & _ & _ & EA & Esvd & EUV & Ed & LC & VC & HR).
  exists A, S, UV, d.
  split; [exact EA|]. split; [exact Esvd|].
  split; [exact EUV|]. split; [exact Ed|]. split; [exact LC|].
  split; [exact (VC 0%nat (Nat.lt_0_succ 1))|].
  split; [exact (VC 1%nat (Nat.lt_succ_diag_r 1))|].
  exact (HR eq_refl).
Defined.

(** C2 on the worked step. *)
Lemma update_transform_scale_witness :
  exists YPY A,
    self_YPY (demo_updated true true true) = Some YPY /\
    self_A (demo_updated true true true) = Some A /\
    YPY = rsum 4 (fun m => vitem [1; 1/2; 1/2; 1/2] m * row_norm2 centred_cross m) /\
    exists AR,
      dot (transpose A) (transpose identity2) = Some AR /\
      self_s (demo_updated true true true) = trace AR / YPY.
Proof.
  destruct (update_transform_scale svd_diagonal (demo true true true)
              (demo_updated true true true) demo_locals
              (demo_wf_statistics (demo true true true) eq_refl) (demo_update true true true))
    as (YPY & A & EY & EA & EYPY & Hon & _).
  exists YPY, A.
  split; [exact EY|]. split; [exact EA|]. split; [exact EYPY|].
  exact (Hon eq_refl).
Defined.

(** C3 (amended) on the worked step. *)
Lemma update_transform_centres_witness :
  length (loc_muX demo_locals) = 2%nat /\
  vitem (loc_muX demo_locals) 0
  = rsum 4 (fun i => item (self_PX em_demo) i 0) / self_Np em_demo /\
  nrows (loc_Y_hat demo_locals) = 4%nat /\
  ncols (loc_Y_hat demo_locals) = 2%nat /\
  item (loc_Y_hat demo_locals) 1 0 = item cross 1 0 - vitem (loc_muY demo_locals) 0.
Proof.
  destruct (update_transform_centres svd_diagonal (demo true true true)
              (demo_updated true true true) demo_locals
              (demo_wf_statistics (demo true true true) eq_refl) (demo_update true true true))
    as ((LX & VX) & _ & _ & Yn & Ym & VY).
  split; [exact LX|].
  split; [exact (VX 0%nat (Nat.lt_0_succ 1))|].
  split; [exact Yn|]. split; [exact Ym|].
  exact (VY 1%nat 0%nat (proj1 (Nat.ltb_lt 1 4) eq_refl) (Nat.lt_0_succ 1)).
Defined.

(** C3 as stated fails on the worked step: the first coordinate of the
    target centroid is [1/5], the sum of the first coordinates of the
    target points over [Np] is 0. *)
Lemma target_centroid_is_not_the_plain_sum :
  update_transform_locals svd_diagonal (demo true true true)
  = Some (demo_locals, demo_updated true true true) /\
  vitem (loc_muX demo_locals) 0 = 1/5 /\
  rsum (self_N em_demo) (fun i => item (self_X em_demo) i 0) / self_Np em_demo = 0 /\
  vitem (loc_muX demo_locals) 0
  <> rsum (self_N em_demo) (fun i => item (self_X em_demo) i 0) / self_Np em_demo.
Proof.
  split; [apply demo_update|].
  split; [reflexivity|].
  split; np_eval; lra.
Qed.

(** C4 on the worked step. *)
Lemma update_variance_objective_witness :
  exists A X_hat YPY AR,
    self_A (demo_updated true true true) = Some A /\
    self_X_hat (demo_updated true true true) = Some X_hat /\
    self_YPY (demo_updated true true true) = Some YPY /\
    dot A identity2 = Some AR /\
    self_q (demo_variance true true true)
    = (rsum (nrows X_hat) (fun n => vitem [1; 1/2; 1/2; 1/2] n * row_norm2 X_hat n)
       - 2 * 1 * trace AR + 1 ^ 2 * YPY) / (2 * 1)
      + INR 2 * (5/2) / 2 * ln 1.
Proof.
  destruct (update_variance_objective (demo_updated true true true)
              (demo_variance true true true) (demo_update_variance true true true))
    as (A & X_hat & YPY & AR & EA & EX & EY & EAR & Eq & _).
  exists A, X_hat, YPY, AR.
  split; [exact EA|]. split; [exact EX|]. split; [exact EY|].
  split; [exact EAR|]. exact Eq.
Defined.



(** C6 on the worked step, with the one-point cloud [(1, 1)]. *)
Lemma transform_point_cloud_modes_witness :
  (exists TY,
     transform_point_cloud (demo_updated true true true) None
     = Some (with_super (demo_updated true true true)
               (set_TY (demo_updated true true true) TY), None)) /\
  (exists out,
     transform_point_cloud (demo_updated true true true) (Some (Mat 2 [[1; 1]]))
     = Some (demo_updated true true true, Some out) /\
     nrows out = 1%nat /\ ncols out = 2%nat).
Proof.
  destruct (transform_point_cloud_modes (demo_updated true true true)
              (Mat 2 [[1; 1]]) (demo_updated_wf_transform true true true)
              eq_refl eq_refl)
    as ((TY & ETY & _) & (out & Eout & On & Om & _)).
  split; [exists TY; exact ETY|].
  exists out. split; [exact Eout|]. split; [exact On | exact Om].
Defined.

(** C7 on the seeded object: only the scale is enabled; rotation and
    translation are the seeds after one call and after two. *)
Lemma update_transform_toggles_witness :
  (self_R seeded_updated = stretch /\ self_R seeded_updated = stretch) /\
  (exists A YPY AR,
     self_A seeded_updated = Some A /\ self_YPY seeded_updated = Some YPY /\
     dot (transpose A) (transpose (self_R seeded_updated)) = Some AR /\
     self_s seeded_updated = trace AR / YPY) /\
  (self_t seeded_updated = Arr2 (Mat 2 [[3; 4]]) /\
   self_t seeded_updated = Arr2 (Mat 2 [[3; 4]])).
Proof.
  exact (update_transform_toggles svd_diagonal (seeded 2 None None None)
           seeded_updated seeded_updated demo_locals
           (seeded_update 2 None None None) seeded_two_calls).
Defined.

(** C8 on the worked data: no toggle, and all three. *)
Lemma init_rejects_all_toggles_disabled_witness :
  (exists e, __init__ psd_any em_demo None None None false false false = Raise e /\
     e = AssertionError) /\
  (exists self, __init__ psd_any em_demo None None None true true true = Ok self).
Proof.
  split.
  - destruct (proj1 (init_rejects_all_toggles_disabled psd_any em_demo
                       None None None false false false) eq_refl)
      as (e & E & He).
    exists e. split; [exact E | exact (He eq_refl)].
  - destruct (proj2 (proj2 (init_rejects_all_toggles_disabled psd_any em_demo
                              None None None true true true) eq_refl) eq_refl)
      as (self & E & _).
    exists self. exact E.
Defined.

Lemma flat_seed_shape : shape (Arr1 [0; 0]) <> [1%nat; self_D em_demo].
Proof. discriminate. Qed.

(** C9 (amended) on the worked step: a flat seed is refused, and the call
    leaves a flat translation. *)
Lemma translation_shapes_witness :
  __init__ psd_any em_demo None (Some (Arr1 [0; 0])) None true true true
  = Raise ValueError /\
  exists v,
    self_t (demo_updated true true true) = Arr1 v /\
    shape (self_t (demo_updated true true true)) = [2%nat].
Proof.
  destruct (translation_shapes svd_diagonal psd_any em_demo None (Arr1 [0; 0])
              None true true true (demo true true true)
              (demo_updated true true true) demo_locals)
    as (Seed & Call).
  split; [exact (Seed flat_seed_shape)|].
  destruct (Call (demo_wf_statistics (demo true true true) eq_refl) (demo_wf_transform true true true)
              eq_refl eq_refl (demo_update true true true))
    as (v & Ev & Sh & _).
  exists v. split; [exact Ev | exact Sh].
Defined.

(** C9 as stated fails on the worked step: the translation stored by the
    call has one dimension, its shape is [(2,)] and not [(1, 2)], and the
    constructor's own check would refuse it as a seed. *)
Lemma translation_is_flat_after_update :
  update_transform svd_diagonal (demo true true true)
  = Some (demo_updated true true true) /\
  self_do_trans (demo true true true) = true /\
  ndim (self_t (demo_updated true true true)) = 1%nat /\
  shape (self_t (demo_updated true true true)) <> [1%nat; 2%nat] /\
  t_refused 2 (Some (self_t (demo_updated true true true))) = true.
Proof.
  split.
  { unfold update_transform. now rewrite demo_update. }
  split; [reflexivity|]. split; [reflexivity|].
  split; [discriminate | reflexivity].
Qed.

(** C10 on the seeded object: the scale comes from the seeded rotation,
    and a routine returning other factors gives the same scale. *)
Lemma update_transform_scale_without_rotation_witness :
  (exists A YPY AR,
     self_A seeded_updated = Some A /\
     self_YPY seeded_updated = Some YPY /\
     dot (transpose A) (transpose stretch) = Some AR /\
     self_s seeded_updated = trace AR / YPY) /\
  (exists self2,
     update_transform svd_swap (seeded 2 None None None) = Some self2 /\
     self_s self2 = self_s seeded_updated).
Proof.
  destruct (update_transform_scale_without_rotation svd_diagonal
              (seeded 2 None None None) seeded_updated demo_locals
              eq_refl eq_refl (seeded_update 2 None None None))
    as (X_hat & A0 & A & YPY & AR & _ & _ & _ & EA & EY & EAR & Es & Any).
  split.
  - exists A, YPY, AR.
    split; [exact EA|]. split; [exact EY|]. split; [exact EAR | exact Es].
  - exists seeded_updated.
    assert (E : update_transform svd_swap (seeded 2 None None None)
                = Some seeded_updated).
    { destruct seeded_update_swap as (loc & E).
      unfold update_transform. now rewrite E. }
    split; [exact E | exact (Any svd_swap seeded_updated E)].
Defined.

(** * Further properties of the class *)

(** ** Finite sums *)

Lemma rsum_plus (n : nat) (f g : nat -> R) :
  rsum n (fun k => f k + g k) = rsum n f + rsum n g.
Proof.
  induction n as [|n IH]; simpl; [lra | rewrite IH; lra].
Qed.

Lemma rsum_scal_l (n : nat) (c : R) (f : nat -> R) :
  rsum n (fun k => c * f k) = c * rsum n f.
Proof.
  induction n as [|n IH]; simpl; [lra | rewrite IH; lra].
Qed.

Lemma rsum_scal_r (n : nat) (c : R) (f : nat -> R) :
  rsum n (fun k => f k * c) = rsum n f * c.
Proof.
  induction n as [|n IH]; simpl; [lra | rewrite IH; lra].
Qed.

Lemma rsum_zero (n : nat) : rsum n (fun _ => 0) = 0.
Proof.
  induction n as [|n IH]; simpl; [reflexivity | rewrite IH; lra].
Qed.

Lemma rsum_swap (n m : nat) (f : nat -> nat -> R) :
  rsum n (fun i => rsum m (fun j => f i j))
  = rsum m (fun j => rsum n (fun i => f i j)).
Proof.
  induction n as [|n IH]; simpl.
  - now rewrite rsum_zero.
  - now rewrite IH, rsum_plus.
Qed.

(** A sum against the Kronecker delta picks one term. *)
Lemma rsum_delta (n j : nat) (f : nat -> R) :
  (j < n)%nat ->
  rsum n (fun k => f k * (if k =? j then 1 else 0)) = f j.
Proof.
  induction n as [|n IH]; intros Hj; [lia|]. simpl.
  destruct (Nat.eqb_spec n j) as [->|Hn].
  - rewrite (rsum_ext j _ (fun _ => 0)).
    + rewrite rsum_zero. lra.
    + intros k Hk. destruct (Nat.eqb_spec k j); [lia | lra].
  - rewrite IH by lia. lra.
Qed.

(** With orthonormal columns [a], the Gram form
    [sum_k (sum_l a_kl w_l) (sum_m a_km z_m)] is [sum_l w_l z_l]. *)
Lemma rsum_gram (n : nat) (a : nat -> nat -> R) (w z : nat -> R) :
  (forall l m, (l < n)%nat -> (m < n)%nat ->
     rsum n (fun k => a k l * a k m) = if l =? m then 1 else 0) ->
  rsum n (fun k => rsum n (fun l => a k l * w l) * rsum n (fun m => a k m * z m))
  = rsum n (fun l => w l * z l).
Proof.
  intros G.
  rewrite (rsum_ext n _ (fun k => rsum n (fun l => rsum n (fun m =>
             (w l * z m) * (a k l * a k m))))).
  2:{ intros k _. rewrite <- rsum_scal_r. apply rsum_ext. intros l _.
      rewrite <- rsum_scal_l. apply rsum_ext. intros m _. ring. }
  rewrite rsum_swap. apply rsum_ext. intros l Hl.
  rewrite rsum_swap.
  rewrite (rsum_ext n _ (fun m => (w l * z m) * (if m =? l then 1 else 0))).
  - rewrite (rsum_delta n l (fun m => w l * z m) Hl). reflexivity.
  - intros m Hm. rewrite rsum_scal_l, (G l m Hl Hm).
    rewrite (Nat.eqb_sym m l). reflexivity.
Qed.

(** ** Arrays given by equal entries are equal *)

Lemma tab1_ext (n : nat) (f g : nat -> R) :
  (forall i, (i < n)%nat -> f i = g i) -> tab1 n f = tab1 n g.
Proof.
  intros H. unfold tab1. apply map_ext_in. intros i Hi.
  apply in_seq in Hi. apply H. lia.
Qed.

Lemma tab2_ext (n m : nat) (f g : nat -> nat -> R) :
  (forall i j, (i < n)%nat -> (j < m)%nat -> f i j = g i j) ->
  tab2 n m f = tab2 n m g.
Proof.
  intros H. unfold tab2. f_equal. apply map_ext_in. intros i Hi.
  apply in_seq in Hi. apply tab1_ext. intros j Hj. apply H; lia.
Qed.

Lemma eye_item (n i j : nat) :
  (i < n)%nat -> (j < n)%nat -> item (eye n) i j = if i =? j then 1 else 0.
Proof. intros. unfold eye. now rewrite tab2_item. Qed.

Lemma diag_item (v : vector) (i j : nat) :
  (i < length v)%nat -> (j < length v)%nat ->
  item (diag v) i j = if i =? j then vitem v i else 0.
Proof. intros. unfold diag. now rewrite tab2_item. Qed.

(** The columns of an orthogonal array are orthonormal. *)
Lemma orthogonal_gram (D : nat) (a : matrix) (l m : nat) :
  orthogonal D a -> (l < D)%nat -> (m < D)%nat ->
  rsum D (fun k => item a k l * item a k m) = if l =? m then 1 else 0.
Proof.
  intros [[Hn Hm _] E] Hl Hm'.
  destruct (dot_shape _ _ _ E) as (_ & _ & _ & Eij).
  rewrite transpose_nrows, transpose_ncols in Eij.
  specialize (Eij l m). rewrite Hm, Hn in Eij.
  rewrite <- (eye_item D l m Hl Hm'), (Eij Hl Hm').
  apply rsum_ext. intros k Hk. now rewrite transpose_item by lia.
Qed.

(** ** The estimated rotation is a proper rotation *)

(** The determinant of the product of two orthogonal factors is 1 or -1. *)
Lemma det_of_orthogonal_factors_unit (D : nat) (u v uv : matrix) (d : R) :
  (D = 2 \/ D = 3)%nat -> orthogonal D u -> orthogonal D v ->
  dot u v = Some uv -> linalg.det uv = Some d ->
  d = 1 \/ d = -1.
Proof.
  intros HD Ou Ov E Ed.
  rewrite (det_dot D u v uv d HD (proj1 Ou) (proj1 Ov) E Ed).
  destruct (square_one _ (orthogonal_det D u HD Ou)) as [-> | ->];
    destruct (square_one _ (orthogonal_det D v HD Ov)) as [-> | ->];
    [left | right | right | left]; lra.
Qed.

(** [(U diag(C) V)^T] has orthonormal rows when [U] and [V] are orthogonal
    and every entry of [C] squares to 1. *)
Lemma corrected_product_orthonormal (D : nat) (U V UC UCV : matrix) (C : vector) :
  orthogonal D U -> orthogonal D V ->
  length C = D ->
  (forall l, (l < D)%nat -> vitem C l * vitem C l = 1) ->
  dot U (diag C) = Some UC -> dot UC V = Some UCV ->
  dot (transpose UCV) (transpose (transpose UCV)) = Some (eye D).
Proof.
  intros OU OV LC HC EUC EUCV.
  pose proof OU as [[Un Um _] _]. pose proof OV as [[Vn Vm _] _].
  destruct (dot_shape _ _ _ EUC) as (_ & UCn & UCm & UCij).
  destruct (dot_shape _ _ _ EUCV) as (_ & UCVn & UCVm & UCVij).
  unfold diag in UCm, UCij. rewrite tab2_ncols in UCm, UCij. fold (diag C) in UCij.
  assert (Rn : nrows UCV = D) by congruence.
  assert (Rm : ncols UCV = D) by congruence.
  unfold dot. rewrite (transpose_nrows (transpose UCV)), Nat.eqb_refl.
  f_equal.
  change (ncols (transpose (transpose UCV))) with (nrows (transpose UCV)).
  change (ncols (transpose UCV)) with (nrows UCV).
  rewrite transpose_nrows, Rn, Rm. unfold eye.
  apply tab2_ext. intros i j Hi Hj.
  rewrite (rsum_ext D _ (fun k =>
             rsum D (fun l => item U k l * (vitem C l * item V l i))
             * rsum D (fun m => item U k m * (vitem C m * item V m j)))).
  2:{ intros k Hk.
      rewrite transpose_item, (transpose_item (transpose UCV)), transpose_item
        by (rewrite ?transpose_nrows, ?transpose_ncols; lia).
      rewrite !UCVij by lia. rewrite UCm, LC.
      f_equal; apply rsum_ext; intros l Hl; rewrite UCij by lia;
        rewrite Um;
        rewrite (rsum_ext D _ (fun m => (item U k m * vitem C m)
                                        * (if m =? l then 1 else 0)))
          by (intros m Hm; rewrite diag_item by lia;
              destruct (m =? l); ring);
        rewrite (rsum_delta D l (fun m => item U k m * vitem C m) Hl); ring. }
  rewrite (rsum_gram D (item U)) by (intros; now apply orthogonal_gram).
  rewrite <- (orthogonal_gram D V i j OV Hi Hj).
  apply rsum_ext. intros l Hl.
  transitivity ((vitem C l * vitem C l) * (item V l i * item V l j)); [ring|].
  rewrite (HC l Hl). ring.
Qed.

(** The determinant of [(U diag(1, .., 1, d) V)^T] for [d = det(U V)]. *)
Lemma corrected_product_det (D : nat) (U V UV UC UCV : matrix) (C : vector) (d : R) :
  (D = 2 \/ D = 3)%nat -> orthogonal D U -> orthogonal D V ->
  dot U V = Some UV -> linalg.det UV = Some d ->
  length C = D ->
  (forall j, (j < D)%nat -> vitem C j = if j =? D - 1 then d else 1) ->
  dot U (diag C) = Some UC -> dot UC V = Some UCV ->
  linalg.det (transpose UCV) = Some 1.
Proof.
  intros HD OU OV EUV Ed LC VC EUC EUCV.
  pose proof (orthogonal_det D U HD OU) as HU2.
  pose proof (orthogonal_det D V HD OV) as HV2.
  pose proof (det_dot D U V UV d HD (proj1 OU) (proj1 OV) EUV Ed) as Hd.
  destruct OU as [SU _], OV as [SV _]. clear EUV Ed.
  destruct HD as [-> | ->].
  - destruct (square2_inv _ SU) as (u00 & u01 & u10 & u11 & ->).
    destruct (square2_inv _ SV) as (v00 & v01 & v10 & v11 & ->).
    destruct (length2_inv _ LC) as (c0 & c1 & ->).
    pose proof (VC 0%nat (Nat.lt_0_succ 1)) as C0.
    pose proof (VC 1%nat (Nat.lt_succ_diag_r 1)) as C1.
    np_eval in C0. np_eval in C1. subst c0 c1.
    np_eval in EUC. injection EUC as <-.
    np_eval in EUCV. injection EUCV as <-.
    np_eval in HU2. np_eval in HV2. np_eval in Hd. subst d.
    np_eval. f_equal.
    match type of HU2 with ?pu * ?pu = 1 =>
    match type of HV2 with ?pv * ?pv = 1 =>
      transitivity ((pu * pu) * (pv * pv)); [ring | rewrite HU2, HV2; ring]
    end end.
  - destruct (square3_inv _ SU)
      as (u00 & u01 & u02 & u10 & u11 & u12 & u20 & u21 & u22 & ->).
    destruct (square3_inv _ SV)
      as (v00 & v01 & v02 & v10 & v11 & v12 & v20 & v21 & v22 & ->).
    destruct (length3_inv _ LC) as (c0 & c1 & c2 & ->).
    pose proof (VC 0%nat (Nat.lt_0_succ 2)) as C0.
    pose proof (VC 1%nat (proj1 (Nat.ltb_lt 1 3) eq_refl)) as C1.
    pose proof (VC 2%nat (Nat.lt_succ_diag_r 2)) as C2.
    np_eval in C0. np_eval in C1. np_eval in C2. subst c0 c1 c2.
    np_eval in EUC. injection EUC as <-.
    np_eval in EUCV. injection EUCV as <-.
    np_eval in HU2. np_eval in HV2. np_eval in Hd. subst d.
    np_eval. f_equal.
    match type of HU2 with ?pu * ?pu = 1 =>
    match type of HV2 with ?pv * ?pv = 1 =>
      transitivity ((pu * pu) * (pv * pv)); [ring | rewrite HU2, HV2; ring]
    end end.
Qed.

(** X1.  With rotation enabled and orthogonal factors from the
    decomposition, the rotation stored by [update_transform] is a proper
    rotation: [R R^T = I] and [det(R) = 1], also when [det(U V) = -1]. *)
Theorem update_transform_proper_rotation
    (svd : matrix -> option (matrix * vector * matrix))
    (self self' : RigidRegistration) (loc : locals) :
  (self_D self = 2 \/ self_D self = 3)%nat ->
  self_do_rot self = true ->
  update_transform_locals svd self = Some (loc, self') ->
  orthogonal (self_D self) (loc_U loc) ->
  orthogonal (self_D self) (loc_V loc) ->
  dot (self_R self') (transpose (self_R self')) = Some (eye (self_D self)) /\
  linalg.det (self_R self') = Some 1.
Proof.
  intros HD Hrot H OU OV.
  destruct (update_transform_locals_inv svd _ _ _ H)
    as (PtY & X_hat & YY & YPY & A0 & A & S & UV & d & _ & _ & _ & _ & _
        & _ & _ & _ & _ & _ & EUV & Ed & EC & ER & _).
  destruct (correction_vector _ _ _ EC) as (LC & VC).
  rewrite Hrot in ER.
  apply bind_Some in ER. destruct ER as (UC & EUC & ER).
  apply bind_Some in ER. destruct ER as (UCV & EUCV & ER).
  injection ER as <-.
  split.
  - apply (corrected_product_orthonormal (self_D self) (loc_U loc) (loc_V loc)
             UC UCV (loc_C loc) OU OV LC); try assumption.
    intros l Hl. rewrite (VC l Hl).
    destruct (l =? self_D self - 1); [|lra].
    destruct (det_of_orthogonal_factors_unit _ _ _ _ _ HD OU OV EUV Ed)
      as [-> | ->]; lra.
  - exact (corrected_product_det _ _ _ _ _ _ _ _ HD OU OV EUV Ed LC VC EUC EUCV).
Qed.

(** ** Cross-covariance *)

(** X2.  The cross-covariance stored by [update_transform] is the [D x D]
    array [A = (X_hat^T P^T) Y_hat], that is
    [A[i,j] = sum_m (sum_n X_hat[n,i] P[m,n]) Y_hat[m,j]]. *)
Theorem update_transform_cross_covariance
    (svd : matrix -> option (matrix * vector * matrix))
    (self self' : RigidRegistration) (loc : locals) :
  wf_statistics self ->
  update_transform_locals svd self = Some (loc, self') ->
  exists X_hat A,
    self_X_hat self' = Some X_hat /\
    self_A self' = Some A /\
    nrows A = self_D self /\ ncols A = self_D self /\
    forall i j, (i < self_D self)%nat -> (j < self_D self)%nat ->
      item A i j
      = rsum (self_M self) (fun m =>
          rsum (self_N self) (fun n => item X_hat n i * item (self_P self) m n)
          * item (loc_Y_hat loc) m j).
Proof.
  intros W H.
  destruct (centring_steps svd _ _ _ W H)
    as (_ & _ & (X_hat & EX & Xn & Xm & _) & Yn & Ym & _).
  destruct (update_transform_locals_inv svd _ _ _ H)
    as (PtY & X_hat' & YY & YPY & A0 & A & S & UV & d & _ & _ & _ & _ & _
        & _ & _ & EA0 & EA & _ & _ & _ & _ & _ & _ & _ & _ & _ & _ & _ & EX'
        & _ & EAs).
  assert (X_hat' = X_hat) by congruence. subst X_hat'.
  destruct W.
  destruct (dot_shape _ _ _ EA0) as (_ & A0n & A0m & A0ij).
  destruct (dot_shape _ _ _ EA) as (_ & An & Am & Aij).
  rewrite transpose_nrows in A0n, A0ij. rewrite !transpose_ncols in A0ij.
  rewrite transpose_ncols in A0m.
  exists X_hat, A. split; [assumption|]. split; [assumption|].
  split; [congruence|]. split; [congruence|].
  intros i j Hi Hj. rewrite Aij by congruence.
  rewrite A0m, wf_P_rows0. apply rsum_ext. intros m Hm. f_equal.
  rewrite A0ij by congruence. rewrite Xn. apply rsum_ext. intros n Hn.
  now rewrite !transpose_item by congruence.
Qed.

(** ** What the estimator leaves alone *)

(** X3.  [update_transform] never touches the inherited attributes (the
    clouds, the correspondence statistics, [TY], [sigma2], [q], [diff],
    [tolerance]) nor the toggles; in particular [TY] is not refreshed by
    the new transform. *)
Theorem update_transform_frame
    (svd : matrix -> option (matrix * vector * matrix))
    (self self' : RigidRegistration) :
  update_transform svd self = Some self' ->
  super self' = super self /\
  self_TY self' = self_TY self /\
  self_sigma2 self' = self_sigma2 self /\
  self_q self' = self_q self /\
  self_diff self' = self_diff self /\
  self_do_scale self' = self_do_scale self /\
  self_do_rot self' = self_do_rot self /\
  self_do_trans self' = self_do_trans self.
Proof.
  intros H. destruct (update_transform_as_locals svd _ _ H) as (loc & H').
  destruct (update_transform_locals_inv svd _ _ _ H')
    as (PtY & X_hat & YY & YPY & A0 & A & S & UV & d & _ & _ & _ & _ & _
        & _ & _ & _ & _ & _ & _ & _ & _ & _ & _ & _ & Esup & Ts & Tr & Tt & _).
  rewrite Esup. repeat split; assumption.
Qed.

(** X4.  [update_variance] assigns [q], [diff] and [sigma2] only: the
    transform, the toggles, the stored [X_hat], [YPY], [A] and every other
    inherited attribute are unchanged. *)
Theorem update_variance_frame (self self' : RigidRegistration) :
  update_variance self = Some self' ->
  self' = with_super self
            (set_variance self (self_q self') (self_diff self') (self_sigma2 self')) /\
  self_R self' = self_R self /\ self_t self' = self_t self /\
  self_s self' = self_s self /\
  self_do_scale self' = self_do_scale self /\
  self_do_rot self' = self_do_rot self /\
  self_do_trans self' = self_do_trans self /\
  self_X_hat self' = self_X_hat self /\ self_YPY self' = self_YPY self /\
  self_A self' = self_A self /\
  self_TY self' = self_TY self /\ self_X self' = self_X self /\
  self_Y self' = self_Y self /\ self_Np self' = self_Np self.
Proof.
  intros H.
  destruct (update_variance_inv _ _ H)
    as (A & AR & X_hat & XX & xPx & YPY & _ & _ & _ & _ & _ & _ & ->).
  repeat split.
Qed.

(** X5.  Before the first call of [update_transform] the attributes [A],
    [X_hat] and [YPY] do not exist: on a freshly constructed object
    [update_variance] raises. *)
Theorem update_variance_before_update_transform
    (is_positive_semi_definite : ndarray -> bool)
    (base : EMRegistration) (R t : option ndarray) (s : option pyobj)
    (a b c : bool) (self : RigidRegistration) :
  __init__ is_positive_semi_definite base R t s a b c = Ok self ->
  update_variance self = None.
Proof.
  unfold __init__.
  destruct (negb (self_D base =? 2) && negb (self_D base =? 3)); [discriminate|].
  destruct (R_refused _ _ _); [discriminate|].
  destruct (t_refused _ _); [discriminate|].
  destruct (s_refused _); [discriminate|].
  destruct (match R with
            | None => Some (eye (self_D base))
            | Some (Arr2 m) => Some m
            | Some _ => None
            end); [|discriminate].
  destruct (negb (a || b || c)); [discriminate|].
  now intros [= <-].
Qed.

(** ** What construction establishes *)

(** A rotation seed that passes its check is a [D x D] array. *)
Lemma R_accepted_shape (is_positive_semi_definite : ndarray -> bool)
    (D : nat) (m : matrix) :
  R_refused is_positive_semi_definite D (Some (Arr2 m)) = false ->
  nrows m = D /\ ncols m = D /\ is_positive_semi_definite (Arr2 m) = true.
Proof.
  simpl. rewrite !orb_false_iff, !negb_false_iff, !Nat.eqb_eq. tauto.
Qed.

(** A scale seed that passes its check is a positive number. *)
Lemma s_accepted_positive (s : pyobj) :
  s_refused (Some s) = false -> exists x, s = Number x /\ 0 < x.
Proof.
  destruct s as [x|]; simpl; [|discriminate].
  destruct (Rle_dec x 0); [discriminate|]. intros _. exists x. split; [reflexivity | lra].
Qed.

(** The object a successful construction returns. *)
Lemma init_Ok_inv (is_positive_semi_definite : ndarray -> bool)
    (base : EMRegistration) (R t : option ndarray) (s : option pyobj)
    (a b c : bool) (self : RigidRegistration) :
  __init__ is_positive_semi_definite base R t s a b c = Ok self ->
  (self_D base = 2 \/ self_D base = 3)%nat /\
  R_refused is_positive_semi_definite (self_D base) R = false /\
  t_refused (self_D base) t = false /\
  s_refused s = false /\
  a || b || c = true /\
  self = Rigid base
           (match R with Some (Arr2 m) => m | _ => eye (self_D base) end)
           (match t with Some t0 => t0 | None => Arr2 (zeros 1 (self_D base)) end)
           (match s with Some (Number x) => x | _ => 1 end)
           a b c None None None.
Proof.
  unfold __init__.
  destruct (Nat.eqb_spec (self_D base) 2) as [D2|D2];
    destruct (Nat.eqb_spec (self_D base) 3) as [D3|D3]; simpl;
    try discriminate;
    (destruct (R_refused _ _ R) eqn:ER; [discriminate|];
     destruct (t_refused _ t) eqn:Et; [discriminate|];
     destruct (s_refused s) eqn:Es; [discriminate|];
     destruct R as [[x | v | m | d1 d2 d3 more data]|]; try discriminate;
     destruct (a || b || c); simpl; try discriminate;
     intros [= <-]; repeat split; auto).
Qed.

(** X6.  A successfully constructed object satisfies the invariants the
    methods rely on: [D] is 2 or 3, [R] is [D x D], [t] has shape
    [(1, D)], [s] is positive and some toggle is enabled. *)
Theorem init_establishes_invariants
    (is_positive_semi_definite : ndarray -> bool)
    (base : EMRegistration) (R t : option ndarray) (s : option pyobj)
    (a b c : bool) (self : RigidRegistration) :
  __init__ is_positive_semi_definite base R t s a b c = Ok self ->
  super self = base /\
  (self_D self = 2 \/ self_D self = 3)%nat /\
  nrows (self_R self) = self_D self /\ ncols (self_R self) = self_D self /\
  shape (self_t self) = [1%nat; self_D self] /\
  0 < self_s self /\
  self_do_scale self || self_do_rot self || self_do_trans self = true.
Proof.
  intros H.
  destruct (init_Ok_inv _ _ _ _ _ _ _ _ _ H) as (HD & ER & Et & Es & T & ->).
  simpl. split; [reflexivity|]. split; [assumption|].
  assert (HR : nrows (match R with Some (Arr2 m) => m | _ => eye (self_D base) end)
               = self_D base /\
               ncols (match R with Some (Arr2 m) => m | _ => eye (self_D base) end)
               = self_D base).
  { destruct R as [[x | v | m | d1 d2 d3 more data]|];
      try (split; [apply tab2_nrows | reflexivity]).
    destruct (R_accepted_shape _ _ _ ER) as (Rn & Rm & _). auto. }
  destruct HR as (Rn & Rm). split; [assumption|]. split; [assumption|].
  split.
  { destruct t as [t0|].
    - now apply t_refused_spec.
    - reflexivity. }
  split; [|assumption].
  destruct s as [s0|]; [|lra].
  destruct (s_accepted_positive _ Es) as (x & -> & Hx). assumption.
Qed.

(** X7.  Right after construction [get_registration_parameters] returns
    the seeds that were supplied, and for a seed that was not the
    default: scale 1, the identity matrix, the zero [1 x D] array. *)
Theorem get_registration_parameters_after_init
    (is_positive_semi_definite : ndarray -> bool)
    (base : EMRegistration) (R t : option ndarray) (s : option pyobj)
    (a b c : bool) (self : RigidRegistration) :
  __init__ is_positive_semi_definite base R t s a b c = Ok self ->
  exists s' R' t',
    get_registration_parameters self = (s', R', t') /\
    (forall x, s = Some (Number x) -> s' = x) /\ (s = None -> s' = 1) /\
    (forall m, R = Some (Arr2 m) -> R' = m) /\ (R = None -> R' = eye (self_D base)) /\
    (forall t0, t = Some t0 -> t' = t0) /\
    (t = None -> t' = Arr2 (zeros 1 (self_D base))).
Proof.
  intros H.
  destruct (init_Ok_inv _ _ _ _ _ _ _ _ _ H) as (_ & _ & _ & _ & _ & ->).
  eexists _, _, _. split; [reflexivity|].
  repeat split; intros; subst; try reflexivity.
  all: match goal with E : _ = _ |- _ => now injection E end.
Qed.

(** ** What construction refuses *)

(** X8.  A dimension other than 2 or 3 raises [ValueError], whatever the
    seeds and the toggles. *)
Theorem init_rejects_dimension
    (is_positive_semi_definite : ndarray -> bool)
    (base : EMRegistration) (R t : option ndarray) (s : option pyobj)
    (a b c : bool) :
  self_D base <> 2%nat -> self_D base <> 3%nat ->
  __init__ is_positive_semi_definite base R t s a b c = Raise ValueError.
Proof.
  intros D2 D3. unfold __init__.
  apply Nat.eqb_neq in D2. apply Nat.eqb_neq in D3. now rewrite D2, D3.
Qed.

(** X9.  A rotation seed whose shape is not [(D, D)], or that fails the
    positive-semi-definiteness check, raises [ValueError]. *)
Theorem init_rejects_rotation_seed
    (is_positive_semi_definite : ndarray -> bool)
    (base : EMRegistration) (R : ndarray) (t : option ndarray)
    (s : option pyobj) (a b c : bool) :
  shape R <> [self_D base; self_D base] \/ is_positive_semi_definite R = false ->
  __init__ is_positive_semi_definite base (Some R) t s a b c = Raise ValueError.
Proof.
  intros Bad.
  pose proof (init_outcome is_positive_semi_definite base (Some R) t s a b c) as O.
  assert (ER : R_refused is_positive_semi_definite (self_D base) (Some R) = true).
  { destruct (R_refused _ _ _) eqn:E; [reflexivity|]. exfalso.
    destruct (R_accepted_inv _ _ _ E) as (m & ->).
    destruct (R_accepted_shape _ _ _ E) as (Rn & Rm & Psd).
    destruct Bad as [Sh | NPsd]; [apply Sh; simpl; congruence | congruence]. }
  unfold seeds_accepted in O. rewrite ER in O. simpl in O.
  rewrite andb_false_r in O. exact O.
Qed.

(** X10.  A scale seed that is not a positive number raises
    [ValueError]. *)
Theorem init_rejects_scale_seed
    (is_positive_semi_definite : ndarray -> bool)
    (base : EMRegistration) (R t : option ndarray) (s : pyobj) (a b c : bool) :
  (forall x, s = Number x -> x <= 0) ->
  __init__ is_positive_semi_definite base R t (Some s) a b c = Raise ValueError.
Proof.
  intros Bad.
  pose proof (init_outcome is_positive_semi_definite base R t (Some s) a b c) as O.
  assert (Es : s_refused (Some s) = true).
  { destruct (s_refused _) eqn:E; [reflexivity|]. exfalso.
    destruct (s_accepted_positive _ E) as (x & -> & Hx).
    specialize (Bad x eq_refl). lra. }
  unfold seeds_accepted in O. rewrite Es in O.
  rewrite andb_false_r in O. exact O.
Qed.

(** ** Shapes are kept from one step to the next *)

(** After a call of the estimator the transform has its shapes again. *)
Lemma wf_transform_after_update
    (svd : matrix -> option (matrix * vector * matrix))
    (self self' : RigidRegistration) (loc : locals) :
  wf_statistics self -> wf_transform self ->
  nrows (loc_U loc) = self_D self ->
  update_transform_locals svd self = Some (loc, self') ->
  super self' = super self /\ wf_statistics self' /\ wf_transform self'.
Proof.
  intros W Wt HU H.
  destruct (update_transform_rotation_shape svd _ _ _ Wt HU H) as (Rn & Rm).
  destruct (update_transform_locals_inv svd _ _ _ H)
    as (PtY & X_hat & YY & YPY & A0 & A & S & UV & d & _ & _ & _ & _ & _
        & _ & _ & _ & _ & _ & _ & _ & _ & _ & _ & Et & Esup & _).
  split; [assumption|]. split.
  { destruct W. split; rewrite Esup; assumption. }
  split; try (rewrite Esup; assumption).
  rewrite Esup.
  destruct (self_do_trans self) eqn:Ht.
  - destruct (translation_update_entries svd _ _ _ W Wt HU Ht H) as (v & _ & Sh & _).
    now right.
  - injection Et as <-. apply Wt.
Qed.

(** The statistics stored by a call, with their shapes. *)
Lemma stored_statistics_shapes
    (svd : matrix -> option (matrix * vector * matrix))
    (self self' : RigidRegistration) (loc : locals) :
  wf_statistics self ->
  update_transform_locals svd self = Some (loc, self') ->
  exists A X_hat YPY,
    self_A self' = Some A /\ ncols A = self_D self /\
    self_X_hat self' = Some X_hat /\ nrows X_hat = self_N self /\
    self_YPY self' = Some YPY.
Proof.
  intros W H.
  destruct (centring_steps svd _ _ _ W H)
    as (_ & _ & (X_hat & EX & Xn & _) & _ & Ym & _).
  destruct (update_transform_locals_inv svd _ _ _ H)
    as (PtY & X_hat' & YY & YPY & A0 & A & S & UV & d & _ & _ & _ & _ & _
        & _ & _ & _ & EA & _ & _ & _ & _ & _ & _ & _ & _ & _ & _ & _ & _
        & EYP & EAs).
  destruct (dot_shape _ _ _ EA) as (_ & _ & Am & _).
  exists A, X_hat, YPY. repeat split; try assumption. congruence.
Qed.

(** X11.  A call of [update_transform] on well-shaped statistics and
    transform leaves well-shaped statistics and transform: [R] is again
    [D x D] and [t] has [D] entries, so that the next call and
    [transform_point_cloud] find operands that fit. *)
Theorem update_transform_keeps_shapes
    (svd : matrix -> option (matrix * vector * matrix))
    (self self' : RigidRegistration) (loc : locals) :
  wf_statistics self -> wf_transform self ->
  nrows (loc_U loc) = self_D self ->
  update_transform_locals svd self = Some (loc, self') ->
  wf_statistics self' /\ wf_transform self' /\ self_D self' = self_D self.
Proof.
  intros W Wt HU H.
  destruct (wf_transform_after_update svd _ _ _ W Wt HU H) as (Esup & W' & Wt').
  split; [assumption|]. split; [assumption|]. now rewrite Esup.
Qed.

(** ** The two modes of [transform_point_cloud] *)

(** X12.  What [transform_point_cloud()] stores as [TY] is what
    [transform_point_cloud(self.Y)] returns, and a second call without
    argument changes nothing. *)
Theorem transform_point_cloud_store_is_pure_result
    (self self1 : RigidRegistration) (r : option matrix) :
  transform_point_cloud self None = Some (self1, r) ->
  r = None /\
  transform_point_cloud self (Some (self_Y self)) = Some (self, Some (self_TY self1)) /\
  transform_point_cloud self1 None = Some (self1, None).
Proof.
  unfold transform_point_cloud at 1. intros H.
  apply bind_Some in H. destruct H as (YR & EYR & H).
  apply bind_Some in H. destruct H as (TY & ETY & H).
  injection H as <- <-.
  split; [reflexivity|]. split.
  - unfold transform_point_cloud. now rewrite EYR, bind_ret, ETY.
  - unfold transform_point_cloud. simpl.
    change (self_Y (super self)) with (self_Y self).
    now rewrite EYR, bind_ret, ETY.
Qed.

(** X13.  The transform of a freshly constructed object without seeds is
    the identity: every cloud with [D] columns is returned entry for
    entry. *)
Theorem default_transform_is_identity
    (is_positive_semi_definite : ndarray -> bool)
    (base : EMRegistration) (a b c : bool)
    (self : RigidRegistration) (cloud : matrix) :
  __init__ is_positive_semi_definite base None None None a b c = Ok self ->
  ncols cloud = self_D base ->
  exists out,
    transform_point_cloud self (Some cloud) = Some (self, Some out) /\
    nrows out = nrows cloud /\ ncols out = self_D base /\
    forall i j, (i < nrows cloud)%nat -> (j < self_D base)%nat ->
      item out i j = item cloud i j.
Proof.
  intros H Hc.
  destruct (init_Ok_inv _ _ _ _ _ _ _ _ _ H) as (_ & _ & _ & _ & _ & ->).
  set (self := Rigid base (eye (self_D base)) (Arr2 (zeros 1 (self_D base))) 1
                 a b c None None None).
  assert (Wt : wf_transform self).
  { split; [apply tab2_nrows | reflexivity | left; reflexivity]. }
  destruct (rigid_image self cloud Wt Hc) as (out & E & On & Om & Oij).
  exists out. split.
  { unfold transform_point_cloud.
    apply bind_Some in E. destruct E as (YR & EYR & E).
    now rewrite EYR, bind_ret, E. }
  split; [assumption|]. split; [assumption|].
  intros i j Hi Hj. rewrite (Oij i j Hi Hj). simpl.
  rewrite (rsum_ext _ _ (fun k => item cloud i k * (if k =? j then 1 else 0)))
    by (intros k Hk; now rewrite eye_item).
  rewrite (rsum_delta _ j (fun k => item cloud i k) Hj).
  unfold zeros. rewrite tab2_item by lia. lra.
Qed.


(** ** One maximisation step *)

(** The array handed to the decomposition routine is [D x D]. *)
Lemma decomposed_array_shape
    (svd : matrix -> option (matrix * vector * matrix))
    (self self' : RigidRegistration) (loc : locals) :
  wf_statistics self ->
  update_transform_locals svd self = Some (loc, self') ->
  exists A S,
    svd A = Some (loc_U loc, S, loc_V loc) /\
    nrows A = self_D self /\ ncols A = self_D self.
Proof.
  intros W H.
  destruct (centring_steps svd _ _ _ W H) as (_ & _ & _ & _ & Ym & _).
  destruct (update_transform_locals_inv svd _ _ _ H)
    as (PtY & X_hat & YY & YPY & A0 & A & S & UV & d & _ & _ & _ & EX & _
        & _ & _ & EA0 & EA & Esvd & _).
  destruct (centred_entries (self_X self) X_hat (loc_muX loc)
              (self_N self) (self_D self)) as (_ & Xm & _);
    try apply W; try assumption.
  { apply (centring_steps svd _ _ _ W H). }
  destruct (dot_shape _ _ _ EA0) as (_ & A0n & _).
  destruct (dot_shape _ _ _ EA) as (_ & An & Am & _).
  rewrite transpose_nrows in A0n.
  exists A, S. split; [assumption|]. split; congruence.
Qed.

(** [update_variance] keeps the shapes of the statistics and of the
    transform. *)
Lemma update_variance_frame_shapes (self self' : RigidRegistration) :
  update_variance self = Some self' ->
  (wf_statistics self -> wf_statistics self') /\
  (wf_transform self -> wf_transform self').
Proof.
  intros H.
  destruct (update_variance_inv _ _ H)
    as (A & AR & X_hat & XX & xPx & YPY & _ & _ & _ & _ & _ & _ & ->).
  split; intros []; split; assumption.
Qed.

(** X15.  On statistics and a transform of the right shapes, with [D]
    positive and a decomposition routine that returns [D x D] factors for a
    [D x D] argument, the three methods called in a row ([update_transform],
    [transform_point_cloud()], [update_variance]) all return, and the
    object they leave has the right shapes again. *)
Theorem maximization_returns
    (svd : matrix -> option (matrix * vector * matrix))
    (self : RigidRegistration) :
  wf_statistics self -> wf_transform self -> (0 < self_D self)%nat ->
  (forall A, nrows A = self_D self -> ncols A = self_D self ->
     exists U S V, svd A = Some (U, S, V) /\
       nrows U = self_D self /\ ncols U = self_D self /\
       nrows V = self_D self /\ ncols V = self_D self) ->
  exists self1 self2 self3,
    update_transform svd self = Some self1 /\
    transform_point_cloud self1 None = Some (self2, None) /\
    update_variance self2 = Some self3 /\
    wf_statistics self3 /\ wf_transform self3.
Proof.
  intros W Wt HD Hsvd.
  destruct (update_transform_returns svd self W Wt HD Hsvd) as (loc & self1 & H).
  assert (HU : nrows (loc_U loc) = self_D self).
  { destruct (decomposed_array_shape svd _ _ _ W H) as (A & S & Esvd & An & Am).
    destruct (Hsvd A An Am) as (U & S' & V & Esvd' & Un & _).
    rewrite Esvd in Esvd'. injection Esvd' as -> _ _. exact Un. }
  destruct (wf_transform_after_update svd _ _ _ W Wt HU H) as (Esup & W1 & Wt1).
  destruct (stored_statistics_shapes svd _ _ _ W H)
    as (A & X_hat & YPY & EA & Am & EX & Xn & EYP).
  destruct (rigid_image self1 (self_Y self1) Wt1) as (TY & E & _).
  { rewrite Esup. apply (wf_Y_cols _ W). }
  apply bind_Some in E. destruct E as (YR & EYR & E).
  set (self2 := with_super self1 (set_TY self1 TY)).
  destruct (update_variance_returns self2 A X_hat YPY) as (self3 & E3);
    try assumption.
  { simpl. rewrite Am. symmetry. rewrite <- Esup. apply (wf_R_rows _ Wt1). }
  { simpl. change (self_Pt1 (super self1)) with (self_Pt1 self1).
    rewrite Esup, Xn. apply (wf_Pt1_len _ W). }
  exists self1, self2, self3.
  split. { unfold update_transform. now rewrite H. }
  split. { unfold transform_point_cloud. now rewrite EYR, bind_ret, E. }
  split; [assumption|].
  destruct (update_variance_frame_shapes self2 self3 E3) as (F1 & F2).
  split; [apply F1 | apply F2].
  - destruct W1. split; assumption.
  - destruct Wt1. split; assumption.
Qed.

(** ** Calling the estimator again *)

(** X16.  On unchanged statistics a second call of [update_transform]
    changes nothing: every enabled component is recomputed to the value it
    already has, whatever the toggles. *)
Theorem update_transform_idempotent
    (svd : matrix -> option (matrix * vector * matrix))
    (self self' : RigidRegistration) :
  update_transform svd self = Some self' ->
  update_transform svd self' = Some self'.
Proof.
  intros H. destruct (update_transform_as_locals svd _ _ H) as (loc & H').
  destruct (update_transform_locals_inv svd _ _ _ H')
    as (PtY & X_hat & YY & YPY & A0 & A & S & UV & d & EPtY & EmuX & EmuY & EX
        & EY & EYY & EYPY & EA0 & EA & Esvd & EUV & Ed & EC & ER & Es & Et
        & Esup & Ts & Tr & Tt & EXh & EYP & EAs).
  destruct self' as [e R' t' s' a' b' c' xh yp As]. simpl in *. subst.
  unfold update_transform, update_transform_locals, transpose1. simpl.
  rewrite EPtY, bind_ret.
  rewrite EmuX in EX. rewrite EmuY in EY. rewrite EmuX, EmuY in Et.
  rewrite EX, bind_ret, EY, bind_ret, EYY, bind_ret, EYPY, bind_ret.
  rewrite EA0, bind_ret, EA, bind_ret, Esvd, bind_ret.
  rewrite EUV, bind_ret, Ed, bind_ret, EC, bind_ret.
  assert (ER' : (if self_do_rot self
                 then (let? UC := dot (loc_U loc) (diag (loc_C loc)) in
                       let? UCV := dot UC (loc_V loc) in Some (transpose UCV))
                 else Some R') = Some R').
  { destruct (self_do_rot self); [exact ER | reflexivity]. }
  rewrite ER', bind_ret.
  assert (Es' : (if self_do_scale self
                 then (let? AR := dot (transpose A) (transpose R') in
                       Some (trace AR / YPY))
                 else Some s') = Some s').
  { destruct (self_do_scale self); [exact Es | reflexivity]. }
  rewrite Es', bind_ret.
  assert (Et' : (if self_do_trans self
                 then (let? Rmu := dot_mv (transpose R')
                                     (divide (sum_axis0 PtY) (self_Np self)) in
                       let? d := subtract1
                                   (divide (sum_axis0 (self_PX self)) (self_Np self))
                                   (scale1 s' Rmu) in
                       Some (Arr1 d))
                 else Some t') = Some t').
  { destruct (self_do_trans self); [exact Et | reflexivity]. }
  rewrite Et', bind_ret. reflexivity.
Qed.

(** X17.  A failure of the decomposition routine is not caught: when the
    routine raises on the cross-covariance [A = (X_hat^T P^T) Y_hat] that
    the call forms, [update_transform] raises. *)
Theorem update_transform_propagates_svd_failure
    (svd : matrix -> option (matrix * vector * matrix))
    (self : RigidRegistration) (PtY X_hat Y_hat A0 A : matrix) :
  dot (transpose (self_P self)) (self_Y self) = Some PtY ->
  subtract (self_X self)
    (tile (divide (sum_axis0 (self_PX self)) (self_Np self)) (self_N self))
  = Some X_hat ->
  subtract (self_Y self)
    (tile (divide (sum_axis0 PtY) (self_Np self)) (self_M self))
  = Some Y_hat ->
  dot (transpose X_hat) (transpose (self_P self)) = Some A0 ->
  dot A0 Y_hat = Some A ->
  svd A = None ->
  update_transform svd self = None.
Proof.
  intros EPtY EX EY EA0 EA Fail.
  destruct (update_transform svd self) as [self'|] eqn:H; [|reflexivity].
  destruct (update_transform_as_locals svd _ _ H) as (loc & H').
  destruct (update_transform_locals_inv svd _ _ _ H')
    as (PtY' & X_hat' & YY & YPY & A0' & A' & S & UV & d & EPtY' & EmuX & EmuY
        & EX' & EY' & _ & _ & EA0' & EA' & Esvd & _).
  assert (PtY' = PtY) by congruence. subst PtY'.
  rewrite EmuX in EX'. rewrite EmuY in EY'.
  assert (X_hat' = X_hat) by congruence. subst X_hat'.
  assert (EYh : loc_Y_hat loc = Y_hat) by congruence.
  rewrite EYh in EA'.
  assert (A0' = A0) by congruence. subst A0'.
  assert (A' = A) by congruence. subst A'.
  rewrite Fail in Esvd. discriminate.
Qed.

(** ** The further properties on the worked step *)

Lemma svd_diagonal_shapes (A : matrix) :
  nrows A = 2%nat -> ncols A = 2%nat ->
  exists U S V, svd_diagonal A = Some (U, S, V) /\
    nrows U = 2%nat /\ ncols U = 2%nat /\ nrows V = 2%nat /\ ncols V = 2%nat.
Proof.
  intros An Am. unfold svd_diagonal. rewrite An, Am.
  eexists _, _, _. split; [reflexivity|]. repeat split.
Qed.

Lemma demo_update_call (a b c : bool) :
  update_transform svd_diagonal (demo a b c) = Some (demo_updated a b c).
Proof. unfold update_transform. now rewrite demo_update. Qed.

Lemma demo_transform_in_place :
  exists TY,
    transform_point_cloud (demo_updated true true true) None
    = Some (with_super (demo_updated true true true)
              (set_TY (demo_updated true true true) TY), None).
Proof.
  destruct (rigid_image (demo_updated true true true) cross
              (demo_updated_wf_transform true true true) eq_refl)
    as (TY & E & _).
  exists TY. unfold transform_point_cloud.
  apply bind_Some in E. destruct E as (YR & EYR & E).
  change (self_Y (demo_updated true true true)) with cross.
  now rewrite EYR, bind_ret, E.
Qed.

(** X1 on the worked step. *)
Lemma update_transform_proper_rotation_witness :
  dot (self_R (demo_updated true true true))
      (transpose (self_R (demo_updated true true true))) = Some (eye 2) /\
  linalg.det (self_R (demo_updated true true true)) = Some 1.
Proof.
  exact (update_transform_proper_rotation svd_diagonal (demo true true true)
           (demo_updated true true true) demo_locals
           (or_introl eq_refl) eq_refl (demo_update true true true)
           identity2_orthogonal identity2_orthogonal).
Defined.

(** X2 on the worked step. *)
Lemma update_transform_cross_covariance_witness :
  exists X_hat A,
    self_X_hat (demo_updated true true true) = Some X_hat /\
    self_A (demo_updated true true true) = Some A /\
    nrows A = 2%nat /\ ncols A = 2%nat /\
    item A 0 0
    = rsum 4 (fun m =>
        rsum 4 (fun n => item X_hat n 0 * item P_demo m n) * item centred_cross m 0).
Proof.
  destruct (update_transform_cross_covariance svd_diagonal (demo true true true)
              (demo_updated true true true) demo_locals
              (demo_wf_statistics (demo true true true) eq_refl)
              (demo_update true true true))
    as (X_hat & A & EX & EA & An & Am & Aij).
  exists X_hat, A.
  split; [exact EX|]. split; [exact EA|]. split; [exact An|]. split; [exact Am|].
  exact (Aij 0%nat 0%nat (Nat.lt_0_succ 1) (Nat.lt_0_succ 1)).
Defined.

(** X3 on the worked step. *)
Lemma update_transform_frame_witness :
  super (demo_updated true true true) = super (demo true true true) /\
  self_TY (demo_updated true true true) = self_TY (demo true true true).
Proof.
  destruct (update_transform_frame svd_diagonal (demo true true true)
              (demo_updated true true true) (demo_update_call true true true))
    as (Esup & ETY & _).
  split; [exact Esup | exact ETY].
Defined.

(** X4 on the worked step. *)
Lemma update_variance_frame_witness :
  self_R (demo_variance true true true) = self_R (demo_updated true true true) /\
  self_s (demo_variance true true true) = self_s (demo_updated true true true) /\
  self_A (demo_variance true true true) = self_A (demo_updated true true true).
Proof.
  destruct (update_variance_frame (demo_updated true true true)
              (demo_variance true true true) (demo_update_variance true true true))
    as (_ & ER & _ & Es & _ & _ & _ & _ & _ & EA & _).
  split; [exact ER|]. split; [exact Es | exact EA].
Defined.

(** X5 on the worked data. *)
Lemma update_variance_before_update_transform_witness :
  update_variance (demo true true true) = None.
Proof.
  exact (update_variance_before_update_transform psd_any em_demo None None None
           true true true (demo true true true)
           (demo_constructed true true true eq_refl)).
Defined.

(** X6 on the worked data. *)
Lemma init_establishes_invariants_witness :
  (self_D (demo true true true) = 2 \/ self_D (demo true true true) = 3)%nat /\
  shape (self_t (demo true true true)) = [1%nat; 2%nat] /\
  0 < self_s (demo true true true).
Proof.
  destruct (init_establishes_invariants psd_any em_demo None None None
              true true true (demo true true true)
              (demo_constructed true true true eq_refl))
    as (_ & HD & _ & _ & Ht & Hs & _).
  split; [exact HD|]. split; [exact Ht | exact Hs].
Defined.

(** X7 on the worked data, with a seeded scale. *)
Lemma get_registration_parameters_after_init_witness :
  exists self s' R' t',
    __init__ psd_any em_demo None None (Some (Number 2)) true true true = Ok self /\
    get_registration_parameters self = (s', R', t') /\
    s' = 2 /\ R' = eye 2 /\ t' = Arr2 (zeros 1 2).
Proof.
  assert (E : __init__ psd_any em_demo None None (Some (Number 2)) true true true
              = Ok (Rigid em_demo (eye 2) (Arr2 (zeros 1 2)) 2 true true true
                      None None None)).
  { unfold __init__. simpl. destruct (Rle_dec 2 0); [exfalso; lra | reflexivity]. }
  destruct (get_registration_parameters_after_init psd_any em_demo None None
              (Some (Number 2)) true true true _ E)
    as (s' & R' & t' & EP & Hs & _ & _ & HR & _ & Ht).
  eexists _, s', R', t'. split; [exact E|]. split; [exact EP|].
  split; [exact (Hs 2 eq_refl)|]. split; [exact (HR eq_refl) | exact (Ht eq_refl)].
Defined.

Lemma em_line_dimension : self_D em_line <> 2%nat /\ self_D em_line <> 3%nat.
Proof. split; discriminate. Qed.

(** X8 on points of a line. *)
Lemma init_rejects_dimension_witness :
  __init__ psd_any em_line None None None true true true = Raise ValueError.
Proof.
  exact (init_rejects_dimension psd_any em_line None None None true true true
           (proj1 em_line_dimension) (proj2 em_line_dimension)).
Defined.

Lemma flat_rotation_seed :
  shape (Arr1 [1; 0]) <> [self_D em_demo; self_D em_demo] \/ psd_any (Arr1 [1; 0]) = false.
Proof. left. discriminate. Qed.

(** X9 on the worked data, with a one-dimensional rotation seed. *)
Lemma init_rejects_rotation_seed_witness :
  __init__ psd_any em_demo (Some (Arr1 [1; 0])) None None true true true
  = Raise ValueError.
Proof.
  exact (init_rejects_rotation_seed psd_any em_demo (Arr1 [1; 0]) None None
           true true true flat_rotation_seed).
Defined.

Lemma zero_is_no_positive_number (x : R) : Number 0 = Number x -> x <= 0.
Proof. intros [= <-]. lra. Qed.

(** X10 on the worked data, with the scale seed 0. *)
Lemma init_rejects_scale_seed_witness :
  __init__ psd_any em_demo None None (Some (Number 0)) true true true
  = Raise ValueError.
Proof.
  exact (init_rejects_scale_seed psd_any em_demo None None (Number 0)
           true true true zero_is_no_positive_number).
Defined.

(** X11 on the worked step. *)
Lemma update_transform_keeps_shapes_witness :
  wf_statistics (demo_updated true true true) /\
  wf_transform (demo_updated true true true).
Proof.
  destruct (update_transform_keeps_shapes svd_diagonal (demo true true true)
              (demo_updated true true true) demo_locals
              (demo_wf_statistics (demo true true true) eq_refl)
              (demo_wf_transform true true true) eq_refl
              (demo_update true true true))
    as (W & Wt & _).
  split; [exact W | exact Wt].
Defined.

(** X12 on the worked step. *)
Lemma transform_point_cloud_store_is_pure_result_witness :
  exists self1,
    transform_point_cloud (demo_updated true true true) None = Some (self1, None) /\
    transform_point_cloud (demo_updated true true true) (Some cross)
    = Some (demo_updated true true true, Some (self_TY self1)) /\
    transform_point_cloud self1 None = Some (self1, None).
Proof.
  destruct demo_transform_in_place as (TY & E).
  destruct (transform_point_cloud_store_is_pure_result
              (demo_updated true true true) _ None E)
    as (_ & Pure & Again).
  eexists. split; [exact E|]. split; [exact Pure | exact Again].
Defined.

(** X13 on the worked data. *)
Lemma default_transform_is_identity_witness :
  exists out,
    transform_point_cloud (demo true true true) (Some cross)
    = Some (demo true true true, Some out) /\
    item out 1 0 = item cross 1 0.
Proof.
  destruct (default_transform_is_identity psd_any em_demo true true true
              (demo true true true) cross
              (demo_constructed true true true eq_refl) eq_refl)
    as (out & E & _ & _ & Oij).
  exists out. split; [exact E|].
  exact (Oij 1%nat 0%nat (proj1 (Nat.ltb_lt 1 4) eq_refl) (Nat.lt_0_succ 1)).
Defined.


(** X15 on the worked step. *)
Lemma maximization_returns_witness :
  exists self1 self2 self3,
    update_transform svd_diagonal (demo true true true) = Some self1 /\
    transform_point_cloud self1 None = Some (self2, None) /\
    update_variance self2 = Some self3.
Proof.
  destruct (maximization_returns svd_diagonal (demo true true true)
              (demo_wf_statistics (demo true true true) eq_refl)
              (demo_wf_transform true true true) (Nat.lt_0_succ 1)
              svd_diagonal_shapes)
    as (self1 & self2 & self3 & E1 & E2 & E3 & _).
  exists self1, self2, self3.
  split; [exact E1|]. split; [exact E2 | exact E3].
Defined.

(** X16 on the worked step. *)
Lemma update_transform_idempotent_witness :
  update_transform svd_diagonal (demo_updated true true true)
  = Some (demo_updated true true true).
Proof.
  exact (update_transform_idempotent svd_diagonal (demo true true true)
           (demo_updated true true true) (demo_update_call true true true)).
Defined.

(** X17 on the worked step, with a routine that raises on its
    cross-covariance. *)
Lemma update_transform_propagates_svd_failure_witness :
  update_transform svd_raises (demo true true true) = None.
Proof.
  eapply (update_transform_propagates_svd_failure svd_raises (demo true true true));
    reflexivity.
Defined.


(** ** The floor of [sigma2] on doubles *)

